(** * Eth2DaiInstant: the order-construction service of the eth2dai plugin

    A shallow embedding of [src/Eth2DaiInstantService.js].  The pure helpers
    ([_setMethod], [_buildParams], [_buildOptions]) are Rocq functions; the
    [async] methods thread an explicit world (the instance fields, the proxy
    service and the trace of collaborator calls) through a small state monad.
    JavaScript numbers are IEEE-754 binary64 values, with the operations of
    the standard library's specification of floating-point arithmetic. *)

From Stdlib Require Import ZArith List String Ascii Bool Lia.
From Stdlib Require Import Floats.SpecFloat.
Import ListNotations.

Local Open Scope string_scope.

(** ** JavaScript primitives used by the service *)

Module Js.

(** The values a proxy handle can take: [currentProxy()] yields an address
    string or nothing, and [_checkProxy] may also yield [false]. *)
Inductive value : Type :=
| Undefined
| Null
| False
| Str (s : string).

(** ToBoolean on those values. *)
Definition truthy (v : value) : bool :=
  match v with
  | Str s => negb (s =? "")
  | _ => false
  end.

Definition is_lower (c : ascii) : bool :=
  let n := nat_of_ascii c in (97 <=? n)%nat && (n <=? 122)%nat.

Definition is_upper (c : ascii) : bool :=
  let n := nat_of_ascii c in (65 <=? n)%nat && (n <=? 90)%nat.

(** Case mapping of one code unit.  The method names of the service are plain
    ASCII, on which [toUpperCase] and [toLowerCase] act letter by letter. *)
Definition upper_char (c : ascii) : ascii :=
  if is_lower c then ascii_of_nat (nat_of_ascii c - 32) else c.

Definition lower_char (c : ascii) : ascii :=
  if is_upper c then ascii_of_nat (nat_of_ascii c + 32) else c.

Fixpoint toUpperCase (s : string) : string :=
  match s with
  | EmptyString => EmptyString
  | String c t => String (upper_char c) (toUpperCase t)
  end.

Fixpoint toLowerCase (s : string) : string :=
  match s with
  | EmptyString => EmptyString
  | String c t => String (lower_char c) (toLowerCase t)
  end.

(** [s.charAt(0)]: the first code unit as a string, empty on the empty
    string. *)
Definition charAt0 (s : string) : string :=
  match s with
  | EmptyString => EmptyString
  | String c _ => String c EmptyString
  end.

(** [s.slice(1)]. *)
Definition slice1 (s : string) : string :=
  match s with
  | EmptyString => EmptyString
  | String _ t => t
  end.

(** [hay.includes(needle)]. *)
Fixpoint includes (needle hay : string) : bool :=
  String.prefix needle hay ||
  match hay with
  | EmptyString => false
  | String _ t => includes needle t
  end.

(** [hay.endsWith(needle)]; the service does not call it, the statements
    about name suffixes do. *)
Definition endsWith (needle hay : string) : bool :=
  (String.length needle <=? String.length hay)%nat &&
  (substring (String.length hay - String.length needle)
             (String.length needle) hay =? needle).

End Js.

(** ** JavaScript numbers *)

Module Number.

Definition prec : Z := 53.
Definition emax : Z := 1024.

Definition t : Type := spec_float.

Definition add : t -> t -> t := SFadd prec emax.
Definition sub : t -> t -> t := SFsub prec emax.
Definition mul : t -> t -> t := SFmul prec emax.
Definition div : t -> t -> t := SFdiv prec emax.

Definition leb : t -> t -> bool := SFleb.
Definition ltb : t -> t -> bool := SFltb.

(** Every JavaScript number is a canonical binary64 value. *)
Definition valid : t -> bool := valid_binary prec emax.

(** ToNumber on an integer: the nearest binary64 value, ties to even. *)
Definition ofZ (z : Z) : t := binary_normalize prec emax z 0 false.

Definition zero : t := S754_zero false.
Definition one : t := S754_finite false 4503599627370496 (-52).

(** The literal [0.02]: the binary64 value nearest to 2/100. *)
Definition lit_0_02 : t := S754_finite false 5764607523034235 (-58).

(** The value of a finite number rounded toward zero to an integer. *)
Definition trunc (x : t) : option Z :=
  match x with
  | S754_zero _ => Some 0%Z
  | S754_finite s m e =>
      let a := match e with
               | Zneg k => Z.shiftr (Zpos m) (Zpos k)
               | _ => Z.shiftl (Zpos m) e
               end in
      Some (if s then Z.opp a else a)
  | _ => None
  end.

End Number.

(** ** Data of the service *)

Definition address : Type := string.

(** What [toFixed('wei')] produces: the decimal digits of an integer number
    of the smallest unit, or the print of a value that is not finite. *)
Inductive wei : Type :=
| Wei (z : Z)
| WeiNotFinite.

(** Modelled from the spec: the unit conversion [ETH.wei(x).toFixed('wei')]
    of [Currency.js], which is not under src/.  The amount, given in the
    smallest unit, is truncated (rounded toward zero) to an integer.  The
    model truncates the exact value of the number; JavaScript prints a number
    of 2^53 or more as its shortest decimal digits padded with zeros, so the
    general statements below are about amounts under 2^53. *)
Definition ETH_wei_toFixed (x : Number.t) : wei :=
  match Number.trunc x with
  | Some z => Wei z
  | None => WeiNotFinite
  end.

(** The contracts [getContractByName] is asked for. *)
Inductive contract : Type :=
| MAKER_OTC
| OASIS_PROXY
| PROXY_REGISTRY.

(** The currencies imported from [./Currency]. *)
Inductive currency : Type :=
| DAI
| WETH
| ETH.

(** One positional argument of a contract call. *)
Inductive arg : Type :=
| Addr (a : address)
| Amt (w : wei).

(** The [options] object of [_buildOptions]; an absent property is [None]. *)
Record options : Type := {
  opt_otc : contract;
  opt_dsProxy : option bool;
  opt_value : option wei
}.

(** An order as packaged for the transaction manager: contract, method,
    parameters, settlement currency and options. *)
Record order : Type := {
  ord_contract : contract;
  ord_method : string;
  ord_params : list arg;
  ord_currency : option currency;
  ord_options : options
}.

(** The collaborators behind [this.get(...)], taken as parameters. *)
Record services : Type := {
  (** the caller's amounts, in human units *)
  Amount : Type;
  (** [this.get('token').getToken(symbol).address()] *)
  tokenAddress : string -> address;
  (** [this.get('smartContract').getContractByName(name).address] *)
  contractAddress : contract -> address;
  (** [getCurrency(amount, token).toFixed('wei')] for the token [symbol] *)
  valueForContract : Amount -> string -> wei;
  (** the exchange's quotes, integers in contract units *)
  otc_getBuyAmount : address -> address -> wei -> Z;
  otc_getPayAmount : address -> address -> wei -> Z;
  (** ToBoolean on what the contract layer returns for a quote *)
  quote_truthy : Z -> bool;
  (** the handle [ensureProxy()] resolves to *)
  ensureProxy_result : Js.value;
  (** the settlement currency [OtcBuyOrder] resolves for an entry point
      that does not buy ETH *)
  buySettlement : string -> currency
}.

(** Calls to collaborators that the service awaits. *)
Inductive call : Type :=
| Proxy_currentProxy
| Proxy_ensureProxy
| Otc_getBuyAmount (buyAddr payAddr : address) (amount : wei)
| Otc_getPayAmount (payAddr buyAddr : address) (amount : wei)
| Allowance_requireAllowance (token : string) (proxy : Js.value).

(** The trace: a call is [Called] when it is issued and [Settled] when the
    promise it returned has resolved; building an order hands it to the
    transaction manager. *)
Inductive event : Type :=
| Called (c : call)
| Settled (c : call)
| SellOrderBuilt (o : order)
| BuyOrderBuilt (o : order).

(** The instance fields of the service, the state of the proxy service, and
    the trace so far (oldest event first). *)
Record world : Type := {
  proxy_current : Js.value;
  _buyAmount : option Z;
  _payAmount : option Z;
  _slippage : Number.t;
  trace : list event
}.

(** ** The monad of the [async] methods *)

(** A computation is a run in which every awaited collaborator call, token
    lookup and unit conversion succeeds.  A call that rejects aborts the
    method before any order is built; those runs are outside the model, and
    every statement about [sell] and [buy] is about the runs that reach the
    order. *)

Definition M (A : Type) : Type := world -> A * world.

Definition ret {A : Type} (a : A) : M A := fun w => (a, w).

Definition bind {A B : Type} (m : M A) (k : A -> M B) : M B :=
  fun w => let (a, w') := m w in k a w'.

Declare Scope async_scope.
Delimit Scope async_scope with async.
Notation "x <- m ;; k" := (bind m (fun x => k))
  (at level 100, m at next level, right associativity) : async_scope.
Notation "m ;;; k" := (bind m (fun _ => k))
  (at level 100, right associativity) : async_scope.
Local Open Scope async_scope.

Definition log (es : list event) : M unit :=
  fun w => (tt, {| proxy_current := proxy_current w;
                   _buyAmount := _buyAmount w;
                   _payAmount := _payAmount w;
                   _slippage := _slippage w;
                   trace := trace w ++ es |}).

(** [await c]: the call is issued and the method resumes once it settled. *)
Definition await (c : call) : M unit := log [Called c; Settled c].

Definition get_buyAmount : M (option Z) := fun w => (_buyAmount w, w).
Definition get_payAmount : M (option Z) := fun w => (_payAmount w, w).
Definition get_slippage : M Number.t := fun w => (_slippage w, w).

Definition set_buyAmount (q : Z) : M unit :=
  fun w => (tt, {| proxy_current := proxy_current w;
                   _buyAmount := Some q;
                   _payAmount := _payAmount w;
                   _slippage := _slippage w;
                   trace := trace w |}).

Definition set_payAmount (q : Z) : M unit :=
  fun w => (tt, {| proxy_current := proxy_current w;
                   _buyAmount := _buyAmount w;
                   _payAmount := Some q;
                   _slippage := _slippage w;
                   trace := trace w |}).

Definition set_proxy (p : Js.value) : M unit :=
  fun w => (tt, {| proxy_current := p;
                   _buyAmount := _buyAmount w;
                   _payAmount := _payAmount w;
                   _slippage := _slippage w;
                   trace := trace w |}).

(** The service as the constructor leaves it. *)
Definition constructed (proxy : Js.value) : world :=
  {| proxy_current := proxy;
     _buyAmount := None;
     _payAmount := None;
     _slippage := Number.lit_0_02;
     trace := [] |}.

Definition setSlippageLimit (limit : Number.t) : M unit :=
  fun w => (tt, {| proxy_current := proxy_current w;
                   _buyAmount := _buyAmount w;
                   _payAmount := _payAmount w;
                   _slippage := limit;
                   trace := trace w |}).

(** ** The method selector *)

(** [method.charAt(0).toUpperCase() + method.slice(1)] *)
Definition capitalize (method : string) : string :=
  Js.toUpperCase (Js.charAt0 method) ++ Js.slice1 method.

Definition _setMethod (sellToken buyToken method : string) (proxy : Js.value)
  : string :=
  if buyToken =? "ETH" then method ++ "BuyEth"
  else if (sellToken =? "ETH") && negb (Js.truthy proxy) then
    "createAnd" ++ capitalize method ++ "PayEth"
  else if sellToken =? "ETH" then method ++ "PayEth"
  else method.

(** ** The slippage bounds *)

(** [buyAmount * (1 - this._slippage)], then [ETH.wei(..).toFixed('wei')]. *)
Definition minBuyBound (slippage : Number.t) (buyAmount : Z) : wei :=
  let adjustedAmount :=
    Number.mul (Number.ofZ buyAmount) (Number.sub Number.one slippage) in
  ETH_wei_toFixed adjustedAmount.

(** [payAmount * (1 + this._slippage)], then [ETH.wei(..).toFixed('wei')]. *)
Definition maxPayBound (slippage : Number.t) (payAmount : Z) : wei :=
  let adjustedAmount :=
    Number.mul (Number.ofZ payAmount) (Number.add Number.one slippage) in
  ETH_wei_toFixed adjustedAmount.

Arguments minBuyBound : simpl never.
Arguments maxPayBound : simpl never.

(** ** The methods of the service *)

Section Service.

Variable S : services.

Definition _getTokenAddress (token : string) : address := tokenAddress S token.

Definition _otcProxy : contract := OASIS_PROXY.

Definition _otc : contract := MAKER_OTC.

Definition _valueForContract (amount : Amount S) (symbol : string) : wei :=
  valueForContract S amount symbol.

(** Modelled from the spec: the proxy service, which is not under src/.
    [currentProxy()] yields the caller's proxy handle or nothing. *)
Definition currentProxy : M Js.value :=
  await Proxy_currentProxy ;;;
  fun w => (proxy_current w, w).

(** Modelled from the spec: the proxy service, which is not under src/.
    [ensureProxy()] creates the proxy, which the caller then has, and yields
    its handle. *)
Definition ensureProxy : M Js.value :=
  await Proxy_ensureProxy ;;;
  set_proxy (ensureProxy_result S) ;;;
  ret (ensureProxy_result S).

(** Modelled from the spec: [OtcSellOrder.build] of [OtcOrder.js], which is
    not under src/.  The order is packaged from the arguments of the call and
    handed to the transaction manager. *)
Definition OtcSellOrder_build (c : contract) (method : string)
  (params : list arg) (cur : currency) (opts : options) : M order :=
  let o := {| ord_contract := c; ord_method := method; ord_params := params;
              ord_currency := Some cur; ord_options := opts |} in
  log [SellOrderBuilt o] ;;; ret o.

(** Modelled from the spec: the settlement asset of a buy order, resolved
    by [OtcBuyOrder] of [OtcOrder.js], which is not under src/.  An entry
    point that buys the native asset settles in the wrapped-native asset;
    for the others the resolution is the collaborator's. *)
Definition buy_settlement (method : string) : currency :=
  if Js.endsWith "BuyEth" method then WETH else buySettlement S method.

(** Modelled from the spec: [OtcBuyOrder.build] of [OtcOrder.js], which is
    not under src/.  The call passes no currency; the order is packaged from
    the arguments of the call and the settlement asset resolved for it, and
    handed to the transaction manager. *)
Definition OtcBuyOrder_build (c : contract) (method : string)
  (params : list arg) (opts : options) : M order :=
  let o := {| ord_contract := c; ord_method := method; ord_params := params;
              ord_currency := Some (buy_settlement method);
              ord_options := opts |} in
  log [BuyOrderBuilt o] ;;; ret o.

Definition getBuyAmount (buyToken payToken : string) (sellAmount : Amount S)
  : M Z :=
  let buyAddr := _getTokenAddress buyToken in
  let payAddr := _getTokenAddress payToken in
  let amount := _valueForContract sellAmount buyToken in
  await (Otc_getBuyAmount buyAddr payAddr amount) ;;;
  set_buyAmount (otc_getBuyAmount S buyAddr payAddr amount) ;;;
  ret (otc_getBuyAmount S buyAddr payAddr amount).

Definition getPayAmount (payToken buyToken : string) (buyAmount : Amount S)
  : M Z :=
  let payAddr := _getTokenAddress payToken in
  let buyAddr := _getTokenAddress buyToken in
  let amount := _valueForContract buyAmount buyToken in
  await (Otc_getPayAmount payAddr buyAddr amount) ;;;
  set_payAmount (otc_getPayAmount S payAddr buyAddr amount) ;;;
  ret (otc_getPayAmount S payAddr buyAddr amount).

Definition _minBuyAmount (buyToken payToken : string) (payAmount : Amount S)
  : M wei :=
  memo <- get_buyAmount ;;
  buyAmount <- match memo with
               | Some q =>
                   if quote_truthy S q then ret q
                   else getBuyAmount buyToken payToken payAmount
               | None => getBuyAmount buyToken payToken payAmount
               end ;;
  slippage <- get_slippage ;;
  ret (minBuyBound slippage buyAmount).

Definition _maxPayAmount (payToken buyToken : string) (buyAmount : Amount S)
  : M wei :=
  memo <- get_payAmount ;;
  payAmount <- match memo with
               | Some q =>
                   if quote_truthy S q then ret q
                   else getPayAmount payToken buyToken buyAmount
               | None => getPayAmount payToken buyToken buyAmount
               end ;;
  slippage <- get_slippage ;;
  ret (maxPayBound slippage payAmount).

Definition _checkProxy (sellCurrency : string) : M Js.value :=
  proxy <- currentProxy ;;
  if Js.truthy proxy then ret proxy
  else if negb (sellCurrency =? "ETH") then ensureProxy
  else ret Js.False.

Definition _buildParams (sendToken : string) (amount : Amount S)
  (buyToken : string) (limit : wei) (method : string) : list arg :=
  let otcAddress := contractAddress S _otc in
  let daiAddress := _getTokenAddress "DAI" in
  let wethAddress := _getTokenAddress "WETH" in
  let orderAmount := _valueForContract amount sendToken in
  let registryAddress := contractAddress S PROXY_REGISTRY in
  if method =? "sellAllAmountPayEth" then
    [Addr otcAddress; Addr wethAddress; Addr daiAddress; Amt limit]
  else if method =? "createAndSellAllAmountPayEth" then
    [Addr registryAddress; Addr otcAddress; Addr daiAddress; Amt limit]
  else if method =? "buyAllAmountPayEth" then
    [Addr otcAddress; Addr daiAddress; Amt orderAmount; Addr wethAddress]
  else if method =? "createAndBuyAllAmountPayEth" then
    [Addr registryAddress; Addr otcAddress; Addr daiAddress; Amt orderAmount]
  else
    [Addr otcAddress; Addr (_getTokenAddress sendToken); Amt orderAmount;
     Addr (_getTokenAddress buyToken); Amt limit].

(** [maxPayAmount] is [None] when the caller passes no fourth argument. *)
Definition _buildOptions (amount : Amount S) (sellToken method : string)
  (maxPayAmount : option wei) : options :=
  {| opt_otc := _otc;
     opt_dsProxy := if negb (Js.includes "create" method) then Some true
                    else None;
     opt_value :=
       if Js.includes "buyallamountpayeth" (Js.toLowerCase method)
       then maxPayAmount
       else if sellToken =? "ETH" then Some (_valueForContract amount "WETH")
       else None |}.

Definition sell (sell_ buy_ : string) (amount : Amount S) : M order :=
  proxy <- _checkProxy sell_ ;;
  let method := _setMethod sell_ buy_ "sellAllAmount" proxy in
  let sellToken := if sell_ =? "ETH" then "WETH" else sell_ in
  let buyToken := if buy_ =? "ETH" then "WETH" else buy_ in
  minFillAmount <- _minBuyAmount buyToken sellToken amount ;;
  let params := _buildParams sellToken amount buyToken minFillAmount method in
  let opts := _buildOptions amount sell_ method None in
  (if Js.truthy proxy
   then await (Allowance_requireAllowance sellToken proxy)
   else ret tt) ;;;
  OtcSellOrder_build _otcProxy method params
    (if buyToken =? "DAI" then DAI else WETH) opts.

Definition buy (buy_ sell_ : string) (amount : Amount S) : M order :=
  proxy <- _checkProxy sell_ ;;
  let method := _setMethod sell_ buy_ "buyAllAmount" proxy in
  let buyToken := if buy_ =? "ETH" then "WETH" else buy_ in
  let sellToken := if sell_ =? "ETH" then "WETH" else sell_ in
  maxPayAmount <- _maxPayAmount sellToken buyToken amount ;;
  let params := _buildParams buyToken amount sellToken maxPayAmount method in
  let opts := _buildOptions amount sell_ method (Some maxPayAmount) in
  (if Js.truthy proxy
   then await (Allowance_requireAllowance sellToken proxy)
   else ret tt) ;;;
  OtcBuyOrder_build _otcProxy method params opts.

(** The events a run appends to the trace. *)
Definition new_events {A : Type} (m : M A) (w : world) : list event :=
  skipn (List.length (trace w)) (trace (snd (m w))).

End Service.

(** ** Vocabulary of the specification *)

(** The decision table of the method selector as the specification words it:
    four rows, the first matching row wins. *)
Inductive decision_table (sellAsset buyAsset base : string) (proxy : Js.value)
  : string -> Prop :=
| row_buy_native :
    buyAsset = "ETH" ->
    decision_table sellAsset buyAsset base proxy (base ++ "BuyEth")
| row_create_and_pay_native :
    buyAsset <> "ETH" -> sellAsset = "ETH" -> Js.truthy proxy = false ->
    decision_table sellAsset buyAsset base proxy
      ("createAnd" ++ capitalize base ++ "PayEth")
| row_pay_native :
    buyAsset <> "ETH" -> sellAsset = "ETH" -> Js.truthy proxy = true ->
    decision_table sellAsset buyAsset base proxy (base ++ "PayEth")
| row_plain :
    buyAsset <> "ETH" -> sellAsset <> "ETH" ->
    decision_table sellAsset buyAsset base proxy base.

(** The five entry-point shapes the parameter builder distinguishes: the four
    named pay-native entry points and the five-argument default. *)
Inductive shape : Type :=
| SellPayEth
| CreateAndSellPayEth
| BuyPayEth
| CreateAndBuyPayEth
| DefaultShape.

Definition shape_of (method : string) : shape :=
  if method =? "sellAllAmountPayEth" then SellPayEth
  else if method =? "createAndSellAllAmountPayEth" then CreateAndSellPayEth
  else if method =? "buyAllAmountPayEth" then BuyPayEth
  else if method =? "createAndBuyAllAmountPayEth" then CreateAndBuyPayEth
  else DefaultShape.

(** The entry points reachable from [sell] and from [buy]. *)
Definition sell_variants : list string :=
  ["sellAllAmountBuyEth"; "createAndSellAllAmountPayEth";
   "sellAllAmountPayEth"; "sellAllAmount"].

Definition buy_variants : list string :=
  ["buyAllAmountBuyEth"; "createAndBuyAllAmountPayEth";
   "buyAllAmountPayEth"; "buyAllAmount"].

(** "A native-currency-buy-all-amount-pay-native variant". *)
Definition is_buy_pay_native (variant : string) : bool :=
  (variant =? "buyAllAmountPayEth") ||
  (variant =? "createAndBuyAllAmountPayEth").

(** "The variant name indicates an atomic create-and-execute call". *)
Definition is_create_and_execute (variant : string) : bool :=
  String.prefix "createAnd" variant.

(** [x === 'ETH' ? 'WETH' : x], the token that stands for an asset. *)
Definition wrapped (asset : string) : string :=
  if asset =? "ETH" then "WETH" else asset.

(** The address arguments of a parameter list, in order. *)
Fixpoint addresses (params : list arg) : list address :=
  match params with
  | [] => []
  | Addr a :: rest => a :: addresses rest
  | Amt _ :: rest => addresses rest
  end.

Definition is_allowance_event (e : event) : bool :=
  match e with
  | Called (Allowance_requireAllowance _ _) => true
  | Settled (Allowance_requireAllowance _ _) => true
  | _ => false
  end.

Definition is_quote_event (e : event) : bool :=
  match e with
  | Called (Otc_getBuyAmount _ _ _) | Settled (Otc_getBuyAmount _ _ _) => true
  | Called (Otc_getPayAmount _ _ _) | Settled (Otc_getPayAmount _ _ _) => true
  | _ => false
  end.

(** The run of an order construction saw the allowance call settle before it
    built the order: the call was awaited. *)
Definition allowance_awaited (es : list event) : Prop :=
  exists pre token proxy post o,
    es = (pre ++ Settled (Allowance_requireAllowance token proxy) :: post)%list
    /\ (In (SellOrderBuilt o) post \/ In (BuyOrderBuilt o) post).

(** The claim that the core does not await the allowance call. *)
Definition allowance_not_awaited (es : list event) : Prop :=
  ~ allowance_awaited es.

Section Vocabulary.

Variable S : services.

(** The transaction options as the specification words them, first match
    first. *)
Definition spec_options (amount : Amount S) (sellAsset variant : string)
  (maxAcceptablePay : option wei) : options :=
  {| opt_otc := MAKER_OTC;
     opt_dsProxy := if is_create_and_execute variant then None else Some true;
     opt_value :=
       if is_buy_pay_native variant then maxAcceptablePay
       else if sellAsset =? "ETH"
            then Some (valueForContract S amount "WETH")
            else None |}.

(** The quote a fresh query of the exchange gives [_minBuyAmount]. *)
Definition fresh_buy_quote (buyToken payToken : string) (payAmount : Amount S)
  : Z :=
  otc_getBuyAmount S (tokenAddress S buyToken) (tokenAddress S payToken)
    (valueForContract S payAmount buyToken).

Definition fresh_pay_quote (payToken buyToken : string) (buyAmount : Amount S)
  : Z :=
  otc_getPayAmount S (tokenAddress S payToken) (tokenAddress S buyToken)
    (valueForContract S buyAmount buyToken).

(** A memoized quote is usable when it is set and truthy. *)
Definition usable (memo : option Z) : option Z :=
  match memo with
  | Some q => if quote_truthy S q then Some q else None
  | None => None
  end.

(** The quote a slippage computation works from: the memoized one when
    usable, a fresh one otherwise. *)
Definition used_buy_quote (w : world) (buyToken payToken : string)
  (payAmount : Amount S) : Z :=
  match usable (_buyAmount w) with
  | Some q => q
  | None => fresh_buy_quote buyToken payToken payAmount
  end.

Definition used_pay_quote (w : world) (payToken buyToken : string)
  (buyAmount : Amount S) : Z :=
  match usable (_payAmount w) with
  | Some q => q
  | None => fresh_pay_quote payToken buyToken buyAmount
  end.

(** The events of a slippage computation: none when the memo is usable,
    one awaited query otherwise. *)
Definition buy_quote_events (w : world) (buyToken payToken : string)
  (payAmount : Amount S) : list event :=
  match usable (_buyAmount w) with
  | Some _ => []
  | None =>
      let c := Otc_getBuyAmount (tokenAddress S buyToken)
                 (tokenAddress S payToken)
                 (valueForContract S payAmount buyToken) in
      [Called c; Settled c]
  end.

Definition pay_quote_events (w : world) (payToken buyToken : string)
  (buyAmount : Amount S) : list event :=
  match usable (_payAmount w) with
  | Some _ => []
  | None =>
      let c := Otc_getPayAmount (tokenAddress S payToken)
                 (tokenAddress S buyToken)
                 (valueForContract S buyAmount buyToken) in
      [Called c; Settled c]
  end.

(** The events of the allowance step, for the handle resolved for the
    order. *)
Definition allowance_events (token : string) (proxy : Js.value)
  : list event :=
  if Js.truthy proxy
  then [Called (Allowance_requireAllowance token proxy);
        Settled (Allowance_requireAllowance token proxy)]
  else [].

(** The order a sale builds, read off the arguments and the world the sale
    starts in. *)
Definition sell_order (w : world) (sell_ buy_ : string) (amount : Amount S)
  : order :=
  let proxy := fst (_checkProxy S sell_ w) in
  let method := _setMethod sell_ buy_ "sellAllAmount" proxy in
  let limit :=
    minBuyBound (_slippage w)
      (used_buy_quote w (wrapped buy_) (wrapped sell_) amount) in
  {| ord_contract := OASIS_PROXY;
     ord_method := method;
     ord_params :=
       _buildParams S (wrapped sell_) amount (wrapped buy_) limit method;
     ord_currency := Some (if wrapped buy_ =? "DAI" then DAI else WETH);
     ord_options := _buildOptions S amount sell_ method None |}.

Definition buy_order (w : world) (buy_ sell_ : string) (amount : Amount S)
  : order :=
  let proxy := fst (_checkProxy S sell_ w) in
  let method := _setMethod sell_ buy_ "buyAllAmount" proxy in
  let limit :=
    maxPayBound (_slippage w)
      (used_pay_quote w (wrapped sell_) (wrapped buy_) amount) in
  {| ord_contract := OASIS_PROXY;
     ord_method := method;
     ord_params :=
       _buildParams S (wrapped buy_) amount (wrapped sell_) limit method;
     ord_currency := Some (buy_settlement S method);
     ord_options := _buildOptions S amount sell_ method (Some limit) |}.

(** [result] is the human-unit amount of the integer [quote] of [token]. *)
Definition human_unit_of (token : string) (result : Amount S) (quote : Z)
  : Prop :=
  valueForContract S result token = Wei quote.

(** A sale asks the exchange for a quote of its own. *)
Definition sell_requeries (w : world) (sell_ buy_ : string)
  (amount : Amount S) : Prop :=
  In (Called (Otc_getBuyAmount (tokenAddress S (wrapped buy_))
                (tokenAddress S (wrapped sell_))
                (valueForContract S amount (wrapped buy_))))
     (new_events (sell S sell_ buy_ amount) w).

End Vocabulary.

(** ** A concrete deployment, for the scenarios *)

Module Demo.

Definition decimals (symbol : string) : Z :=
  if symbol =? "USDC" then 6%Z else 18%Z.

(** Amounts are whole numbers of units, the exchange trades one unit of any
    token for two of any other, and quotes are plain JavaScript numbers. *)
Definition svc : services :=
  {| Amount := Z;
     tokenAddress := fun symbol => "0x" ++ symbol;
     contractAddress := fun c =>
       match c with
       | MAKER_OTC => "0xOTC"
       | OASIS_PROXY => "0xOASIS"
       | PROXY_REGISTRY => "0xREGISTRY"
       end;
     valueForContract := fun amount symbol =>
       Wei (amount * 10 ^ decimals symbol)%Z;
     otc_getBuyAmount := fun _ _ amount =>
       match amount with Wei z => (2 * z)%Z | WeiNotFinite => 0%Z end;
     otc_getPayAmount := fun _ _ amount =>
       match amount with Wei z => (z / 2)%Z | WeiNotFinite => 0%Z end;
     quote_truthy := fun q => negb (q =? 0)%Z;
     ensureProxy_result := Js.Str "0xPROXY";
     buySettlement := fun _ => DAI |}.

Definition no_proxy : world := constructed Js.Null.

Definition with_proxy : world := constructed (Js.Str "0xMYPROXY").

End Demo.

(** ** Vocabulary for whole runs *)

Definition is_ensureProxy_call (e : event) : bool :=
  match e with
  | Called Proxy_ensureProxy => true
  | _ => false
  end.

Definition is_buy_quote_event (e : event) : bool :=
  match e with
  | Called (Otc_getBuyAmount _ _ _) | Settled (Otc_getBuyAmount _ _ _) => true
  | _ => false
  end.

Definition is_pay_quote_event (e : event) : bool :=
  match e with
  | Called (Otc_getPayAmount _ _ _) | Settled (Otc_getPayAmount _ _ _) => true
  | _ => false
  end.

(** A name whose code units are all ASCII: there the case mappings of the
    model are those of JavaScript. *)
Fixpoint is_ascii_name (s : string) : bool :=
  match s with
  | EmptyString => true
  | String c t => (nat_of_ascii c <? 128)%nat && is_ascii_name t
  end.

(** What [_checkProxy] resolves to, and the proxy the caller has afterwards,
    as functions of the proxy the caller had. *)
Definition resolved_proxy (S : services) (sellCurrency : string)
  (current : Js.value) : Js.value :=
  if Js.truthy current then current
  else if negb (sellCurrency =? "ETH") then ensureProxy_result S
  else Js.False.

Definition proxy_afterwards (S : services) (sellCurrency : string)
  (current : Js.value) : Js.value :=
  if Js.truthy current then current
  else if negb (sellCurrency =? "ETH") then ensureProxy_result S
  else current.

Definition is_quote_call (e : event) : bool :=
  match e with
  | Called (Otc_getBuyAmount _ _ _) | Called (Otc_getPayAmount _ _ _) => true
  | _ => false
  end.

(** * Properties *)

(** ** The primitives on the names and numbers of the service *)

Example capitalize_sellAllAmount : capitalize "sellAllAmount" = "SellAllAmount".
Proof. reflexivity. Qed.

Example capitalize_empty : capitalize "" = "".
Proof. reflexivity. Qed.

Example toLowerCase_createAndBuy :
  Js.toLowerCase "createAndBuyAllAmountPayEth" = "createandbuyallamountpayeth".
Proof. reflexivity. Qed.

Example includes_create :
  Js.includes "create" "createAndSellAllAmountPayEth" = true /\
  Js.includes "create" "sellAllAmountPayEth" = false.
Proof. split; reflexivity. Qed.

Example one_is_ofZ_1 : Number.ofZ 1 = Number.one.
Proof. reflexivity. Qed.

Example lit_0_02_is_nearest :
  Number.div (Number.ofZ 2) (Number.ofZ 100) = Number.lit_0_02.
Proof. vm_compute; reflexivity. Qed.

Example factors_at_0_02 :
  Number.sub Number.one Number.lit_0_02 =
    S754_finite false 8827055269646172 (-53) /\
  Number.add Number.one Number.lit_0_02 =
    S754_finite false 4593671619917906 (-52).
Proof. split; vm_compute; reflexivity. Qed.

(** ** The method selector *)

Lemma setMethod_in_table sellToken buyToken method proxy :
  decision_table sellToken buyToken method proxy
    (_setMethod sellToken buyToken method proxy).
Proof.
  unfold _setMethod.
  destruct (String.eqb_spec buyToken "ETH") as [Hb | Hb].
  - now apply row_buy_native.
  - destruct (String.eqb_spec sellToken "ETH") as [Hs | Hs]; cbn [andb].
    + destruct (Js.truthy proxy) eqn:Hp; cbn [negb].
      * now apply row_pay_native.
      * now apply row_create_and_pay_native.
    + now apply row_plain.
Qed.

Lemma table_functional sellAsset buyAsset base proxy v1 v2 :
  decision_table sellAsset buyAsset base proxy v1 ->
  decision_table sellAsset buyAsset base proxy v2 ->
  v1 = v2.
Proof.
  intros H1 H2; inversion H1; inversion H2; subst; congruence.
Qed.

Lemma setMethod_sell_variants sellToken buyToken proxy :
  In (_setMethod sellToken buyToken "sellAllAmount" proxy) sell_variants.
Proof.
  unfold _setMethod, sell_variants.
  destruct (buyToken =? "ETH"), (sellToken =? "ETH"), (Js.truthy proxy);
    cbn; tauto.
Qed.

Lemma setMethod_buy_variants sellToken buyToken proxy :
  In (_setMethod sellToken buyToken "buyAllAmount" proxy) buy_variants.
Proof.
  unfold _setMethod, buy_variants.
  destruct (buyToken =? "ETH"), (sellToken =? "ETH"), (Js.truthy proxy);
    cbn; tauto.
Qed.

(** C1. For every sell asset, buy asset, base name and proxy handle the
    selector returns the value of exactly one row of the decision table
    (buy native: base + BuyEth; else sell native without proxy:
    createAnd + capitalized base + PayEth; else sell native: base + PayEth;
    else the base unchanged), that value is the only one the table allows,
    and for the two base names of the service it is one of the defined entry
    points, each of which has one of the five parameter shapes. *)
Theorem setMethod_decision_table :
  forall sellToken buyToken method proxy,
    (exists! v, decision_table sellToken buyToken method proxy v) /\
    decision_table sellToken buyToken method proxy
      (_setMethod sellToken buyToken method proxy) /\
    In (_setMethod sellToken buyToken method proxy)
       [method ++ "BuyEth"; "createAnd" ++ capitalize method ++ "PayEth";
        method ++ "PayEth"; method] /\
    In (_setMethod sellToken buyToken "sellAllAmount" proxy) sell_variants /\
    In (_setMethod sellToken buyToken "buyAllAmount" proxy) buy_variants /\
    map shape_of sell_variants =
      [DefaultShape; CreateAndSellPayEth; SellPayEth; DefaultShape] /\
    map shape_of buy_variants =
      [DefaultShape; CreateAndBuyPayEth; BuyPayEth; DefaultShape].
Proof.
  intros sellToken buyToken method proxy.
  pose proof (setMethod_in_table sellToken buyToken method proxy) as Hin.
  repeat split.
  - exists (_setMethod sellToken buyToken method proxy); split; [exact Hin|].
    intros v Hv; eapply table_functional; eauto.
  - exact Hin.
  - destruct Hin; cbn; tauto.
  - apply setMethod_sell_variants.
  - apply setMethod_buy_variants.
Qed.

(** ** Running the monad *)

Lemma new_events_app {A : Type} (m : M A) (w : world) (es : list event) :
  trace (snd (m w)) = (trace w ++ es)%list -> new_events m w = es.
Proof.
  intros H; unfold new_events; rewrite H.
  rewrite skipn_app, skipn_all, Nat.sub_diag; reflexivity.
Qed.

Ltac run :=
  unfold bind, await, log, ret, get_buyAmount, get_payAmount,
    get_slippage, set_buyAmount, set_payAmount, set_proxy; cbn.

(** ** Proxy resolution *)

Section ProxyResolution.

Variable S : services.

Lemma checkProxy_existing sellCurrency w :
  Js.truthy (proxy_current w) = true ->
  _checkProxy S sellCurrency w =
    (proxy_current w,
     snd (await Proxy_currentProxy w)).
Proof.
  intros H; unfold _checkProxy, currentProxy; run; rewrite H; reflexivity.
Qed.

Lemma checkProxy_created sellCurrency w :
  Js.truthy (proxy_current w) = false -> sellCurrency <> "ETH" ->
  _checkProxy S sellCurrency w =
    (ensureProxy_result S,
     snd (set_proxy (ensureProxy_result S)
            (snd (await Proxy_ensureProxy
                    (snd (await Proxy_currentProxy w)))))).
Proof.
  intros H Hs; unfold _checkProxy, currentProxy, ensureProxy; run.
  rewrite H. apply String.eqb_neq in Hs; rewrite Hs; reflexivity.
Qed.

Lemma checkProxy_none w :
  Js.truthy (proxy_current w) = false ->
  _checkProxy S "ETH" w = (Js.False, snd (await Proxy_currentProxy w)).
Proof.
  intros H; unfold _checkProxy, currentProxy; run; rewrite H; reflexivity.
Qed.

(** The resolved handle is truthy exactly when the caller had a proxy or one
    was created for a sale that is not native. *)
Lemma checkProxy_fields sellCurrency w :
  let w' := snd (_checkProxy S sellCurrency w) in
  _buyAmount w' = _buyAmount w /\ _payAmount w' = _payAmount w /\
  _slippage w' = _slippage w /\
  exists es, trace w' = (trace w ++ es)%list /\
             forallb (fun e => negb (is_allowance_event e || is_quote_event e))
               es = true.
Proof.
  cbn zeta.
  destruct (Js.truthy (proxy_current w)) eqn:H.
  - rewrite (checkProxy_existing _ _ H); cbn. repeat split.
    eexists; split; reflexivity.
  - destruct (String.eqb_spec sellCurrency "ETH") as [-> | Hs].
    + rewrite (checkProxy_none _ H); cbn. repeat split.
      eexists; split; reflexivity.
    + rewrite (checkProxy_created _ _ H Hs); cbn. repeat split.
      rewrite <- app_assoc. eexists; split; reflexivity.
Qed.

Lemma checkProxy_new_events sellCurrency w :
  new_events (_checkProxy S sellCurrency) w =
    ([Called Proxy_currentProxy; Settled Proxy_currentProxy] ++
     (if Js.truthy (proxy_current w) then []
      else if negb (sellCurrency =? "ETH")
           then [Called Proxy_ensureProxy; Settled Proxy_ensureProxy]
           else []))%list.
Proof.
  apply new_events_app.
  destruct (Js.truthy (proxy_current w)) eqn:H.
  - rewrite (checkProxy_existing _ _ H); reflexivity.
  - destruct (String.eqb_spec sellCurrency "ETH") as [-> | Hs].
    + rewrite (checkProxy_none _ H); reflexivity.
    + rewrite (checkProxy_created _ _ H Hs); cbn.
      rewrite <- app_assoc; reflexivity.
Qed.

End ProxyResolution.

(** C4. Proxy resolution: a proxy the caller already has is returned (and
    none is created); otherwise, when the sell asset is not native, creation
    is requested from the proxy service and the created handle is returned;
    otherwise (native sell asset, no proxy) the result is [false] and nothing
    is created. *)
Theorem checkProxy_resolution :
  forall (S : services) (sellCurrency : string) (w : world),
    (Js.truthy (proxy_current w) = true ->
       fst (_checkProxy S sellCurrency w) = proxy_current w /\
       new_events (_checkProxy S sellCurrency) w =
         [Called Proxy_currentProxy; Settled Proxy_currentProxy]) /\
    (Js.truthy (proxy_current w) = false -> sellCurrency <> "ETH" ->
       fst (_checkProxy S sellCurrency w) = ensureProxy_result S /\
       new_events (_checkProxy S sellCurrency) w =
         [Called Proxy_currentProxy; Settled Proxy_currentProxy;
          Called Proxy_ensureProxy; Settled Proxy_ensureProxy]) /\
    (Js.truthy (proxy_current w) = false -> sellCurrency = "ETH" ->
       fst (_checkProxy S sellCurrency w) = Js.False /\
       new_events (_checkProxy S sellCurrency) w =
         [Called Proxy_currentProxy; Settled Proxy_currentProxy]).
Proof.
  intros S sellCurrency w; repeat split.
  - rewrite checkProxy_existing by assumption; reflexivity.
  - apply new_events_app; rewrite checkProxy_existing by assumption.
    reflexivity.
  - rewrite checkProxy_created by assumption; reflexivity.
  - apply new_events_app; rewrite checkProxy_created by assumption.
    cbn; rewrite <- app_assoc; reflexivity.
  - subst; rewrite checkProxy_none by assumption; reflexivity.
  - subst; apply new_events_app; rewrite checkProxy_none by assumption.
    reflexivity.
Qed.

Lemma checkProxy_resolution_witness :
  fst (_checkProxy Demo.svc "DAI" Demo.no_proxy) = Js.Str "0xPROXY" /\
  fst (_checkProxy Demo.svc "ETH" Demo.no_proxy) = Js.False /\
  fst (_checkProxy Demo.svc "DAI" Demo.with_proxy) = Js.Str "0xMYPROXY".
Proof.
  split; [|split].
  - apply (checkProxy_resolution Demo.svc "DAI" Demo.no_proxy);
      [reflexivity | discriminate].
  - apply (checkProxy_resolution Demo.svc "ETH" Demo.no_proxy); reflexivity.
  - apply (checkProxy_resolution Demo.svc "DAI" Demo.with_proxy); reflexivity.
Defined.

(** ** The parameter builder *)

Lemma shape_of_default_cases method :
  shape_of method = DefaultShape ->
  (method =? "sellAllAmountPayEth") = false /\
  (method =? "createAndSellAllAmountPayEth") = false /\
  (method =? "buyAllAmountPayEth") = false /\
  (method =? "createAndBuyAllAmountPayEth") = false.
Proof.
  unfold shape_of.
  destruct (method =? "sellAllAmountPayEth"); [discriminate|].
  destruct (method =? "createAndSellAllAmountPayEth"); [discriminate|].
  destruct (method =? "buyAllAmountPayEth"); [discriminate|].
  destruct (method =? "createAndBuyAllAmountPayEth"); [discriminate|].
  auto.
Qed.

Lemma buildParams_named_addresses (S : services) method
  sendToken (amount : Amount S) buyToken limit
  sendToken' (amount' : Amount S) buyToken' limit' :
  shape_of method <> DefaultShape ->
  addresses (_buildParams S sendToken amount buyToken limit method) =
  addresses (_buildParams S sendToken' amount' buyToken' limit' method) /\
  In (tokenAddress S "DAI")
     (addresses (_buildParams S sendToken amount buyToken limit method)).
Proof.
  unfold shape_of, _buildParams, _getTokenAddress.
  destruct (method =? "sellAllAmountPayEth"); [cbn; tauto|].
  destruct (method =? "createAndSellAllAmountPayEth"); [cbn; tauto|].
  destruct (method =? "buyAllAmountPayEth"); [cbn; tauto|].
  destruct (method =? "createAndBuyAllAmountPayEth"); [cbn; tauto|].
  congruence.
Qed.

(** C10. In the four pay-native parameter shapes the address slot of the
    asset traded against the native one holds DAI's address, whatever tokens
    the caller named: the address arguments do not depend on the caller's
    tokens.  Only the default five-argument shape carries the addresses of
    the caller's tokens. *)
Theorem buildParams_pay_native_counter_asset_is_DAI :
  forall (S : services) (sendToken buyToken : string) (amount : Amount S)
         (limit : wei),
    let otc := contractAddress S MAKER_OTC in
    let registry := contractAddress S PROXY_REGISTRY in
    let dai := tokenAddress S "DAI" in
    let weth := tokenAddress S "WETH" in
    let orderAmount := valueForContract S amount sendToken in
    _buildParams S sendToken amount buyToken limit "sellAllAmountPayEth" =
      [Addr otc; Addr weth; Addr dai; Amt limit] /\
    _buildParams S sendToken amount buyToken limit
        "createAndSellAllAmountPayEth" =
      [Addr registry; Addr otc; Addr dai; Amt limit] /\
    _buildParams S sendToken amount buyToken limit "buyAllAmountPayEth" =
      [Addr otc; Addr dai; Amt orderAmount; Addr weth] /\
    _buildParams S sendToken amount buyToken limit
        "createAndBuyAllAmountPayEth" =
      [Addr registry; Addr otc; Addr dai; Amt orderAmount] /\
    (forall method sendToken' buyToken' amount' limit',
        shape_of method <> DefaultShape ->
        addresses (_buildParams S sendToken amount buyToken limit method) =
        addresses (_buildParams S sendToken' amount' buyToken' limit' method)
        /\ In dai
             (addresses
                (_buildParams S sendToken amount buyToken limit method))) /\
    (forall method,
        shape_of method = DefaultShape ->
        _buildParams S sendToken amount buyToken limit method =
          [Addr otc; Addr (tokenAddress S sendToken); Amt orderAmount;
           Addr (tokenAddress S buyToken); Amt limit]).
Proof.
  intros S sendToken buyToken amount limit; cbn zeta.
  do 4 (split; [reflexivity|]).
  split.
  - intros method sendToken' buyToken' amount' limit' H.
    apply buildParams_named_addresses; exact H.
  - intros method H.
    apply shape_of_default_cases in H as (H1 & H2 & H3 & H4).
    unfold _buildParams; rewrite H1, H2, H3, H4; reflexivity.
Qed.

Lemma buildParams_pay_native_counter_asset_is_DAI_witness :
  addresses (_buildParams Demo.svc "WETH" 1%Z "MKR" (Wei 7)
               "createAndSellAllAmountPayEth") =
    ["0xREGISTRY"; "0xOTC"; "0xDAI"] /\
  _buildParams Demo.svc "MKR" 1%Z "USDC" (Wei 7) "sellAllAmount" =
    [Addr "0xOTC"; Addr "0xMKR"; Amt (Wei 1000000000000000000);
     Addr "0xUSDC"; Amt (Wei 7)].
Proof.
  split.
  - rewrite (proj1 (proj1 (proj2 (proj2 (proj2 (proj2
      (buildParams_pay_native_counter_asset_is_DAI
         Demo.svc "WETH" "MKR" 1%Z (Wei 7))))))
      "createAndSellAllAmountPayEth" "DAI" "DAI" 1%Z (Wei 7)
      ltac:(discriminate))).
    reflexivity.
  - apply (buildParams_pay_native_counter_asset_is_DAI
             Demo.svc "MKR" "USDC" 1%Z (Wei 7)).
    reflexivity.
Defined.

(** ** Quotes and their memo *)

Section Quotes.

Variable S : services.

Lemma getBuyAmount_run buyToken payToken sellAmount w :
  getBuyAmount S buyToken payToken sellAmount w =
    (fresh_buy_quote S buyToken payToken sellAmount,
     {| proxy_current := proxy_current w;
        _buyAmount := Some (fresh_buy_quote S buyToken payToken sellAmount);
        _payAmount := _payAmount w;
        _slippage := _slippage w;
        trace := trace w ++
          [Called (Otc_getBuyAmount (tokenAddress S buyToken)
                     (tokenAddress S payToken)
                     (valueForContract S sellAmount buyToken));
           Settled (Otc_getBuyAmount (tokenAddress S buyToken)
                      (tokenAddress S payToken)
                      (valueForContract S sellAmount buyToken))] |}).
Proof. reflexivity. Qed.

Lemma getPayAmount_run payToken buyToken buyAmount w :
  getPayAmount S payToken buyToken buyAmount w =
    (fresh_pay_quote S payToken buyToken buyAmount,
     {| proxy_current := proxy_current w;
        _buyAmount := _buyAmount w;
        _payAmount := Some (fresh_pay_quote S payToken buyToken buyAmount);
        _slippage := _slippage w;
        trace := trace w ++
          [Called (Otc_getPayAmount (tokenAddress S payToken)
                     (tokenAddress S buyToken)
                     (valueForContract S buyAmount buyToken));
           Settled (Otc_getPayAmount (tokenAddress S payToken)
                      (tokenAddress S buyToken)
                      (valueForContract S buyAmount buyToken))] |}).
Proof. reflexivity. Qed.

Lemma minBuyAmount_memo buyToken payToken payAmount w q :
  usable S (_buyAmount w) = Some q ->
  _minBuyAmount S buyToken payToken payAmount w =
    (minBuyBound (_slippage w) q, w).
Proof.
  unfold usable, _minBuyAmount; run.
  destruct (_buyAmount w) as [q0|]; [|discriminate].
  destruct (quote_truthy S q0); [|discriminate].
  intros [= ->]; reflexivity.
Qed.

Lemma minBuyAmount_fresh buyToken payToken payAmount w :
  usable S (_buyAmount w) = None ->
  _minBuyAmount S buyToken payToken payAmount w =
    (minBuyBound (_slippage w) (fresh_buy_quote S buyToken payToken payAmount),
     snd (getBuyAmount S buyToken payToken payAmount w)).
Proof.
  unfold usable, _minBuyAmount; run.
  destruct (_buyAmount w) as [q0|]; [|reflexivity].
  destruct (quote_truthy S q0); [discriminate|reflexivity].
Qed.

Lemma maxPayAmount_memo payToken buyToken buyAmount w q :
  usable S (_payAmount w) = Some q ->
  _maxPayAmount S payToken buyToken buyAmount w =
    (maxPayBound (_slippage w) q, w).
Proof.
  unfold usable, _maxPayAmount; run.
  destruct (_payAmount w) as [q0|]; [|discriminate].
  destruct (quote_truthy S q0); [|discriminate].
  intros [= ->]; reflexivity.
Qed.

Lemma maxPayAmount_fresh payToken buyToken buyAmount w :
  usable S (_payAmount w) = None ->
  _maxPayAmount S payToken buyToken buyAmount w =
    (maxPayBound (_slippage w) (fresh_pay_quote S payToken buyToken buyAmount),
     snd (getPayAmount S payToken buyToken buyAmount w)).
Proof.
  unfold usable, _maxPayAmount; run.
  destruct (_payAmount w) as [q0|]; [|reflexivity].
  destruct (quote_truthy S q0); [discriminate|reflexivity].
Qed.

(** Whatever the memo, the bound is computed from the quote in use. *)
Lemma minBuyAmount_value buyToken payToken payAmount w :
  fst (_minBuyAmount S buyToken payToken payAmount w) =
    minBuyBound (_slippage w) (used_buy_quote S w buyToken payToken payAmount).
Proof.
  unfold used_buy_quote.
  destruct (usable S (_buyAmount w)) as [q|] eqn:H.
  - rewrite (minBuyAmount_memo _ _ _ _ _ H); reflexivity.
  - rewrite (minBuyAmount_fresh _ _ _ _ H); reflexivity.
Qed.

Lemma maxPayAmount_value payToken buyToken buyAmount w :
  fst (_maxPayAmount S payToken buyToken buyAmount w) =
    maxPayBound (_slippage w) (used_pay_quote S w payToken buyToken buyAmount).
Proof.
  unfold used_pay_quote.
  destruct (usable S (_payAmount w)) as [q|] eqn:H.
  - rewrite (maxPayAmount_memo _ _ _ _ _ H); reflexivity.
  - rewrite (maxPayAmount_fresh _ _ _ _ H); reflexivity.
Qed.

End Quotes.

(** ** Order construction *)

Section Orders.

Variable S : services.

Lemma usable_after_checkProxy sellCurrency w :
  _buyAmount (snd (_checkProxy S sellCurrency w)) = _buyAmount w /\
  _payAmount (snd (_checkProxy S sellCurrency w)) = _payAmount w /\
  _slippage (snd (_checkProxy S sellCurrency w)) = _slippage w.
Proof.
  destruct (checkProxy_fields S sellCurrency w) as (H1 & H2 & H3 & _).
  auto.
Qed.

Lemma sell_eq sell_ buy_ amount w :
  sell S sell_ buy_ amount w =
    let (proxy, w1) := _checkProxy S sell_ w in
    let (limit, w2) :=
      _minBuyAmount S (wrapped buy_) (wrapped sell_) amount w1 in
    let method := _setMethod sell_ buy_ "sellAllAmount" proxy in
    let o :=
      {| ord_contract := OASIS_PROXY;
         ord_method := method;
         ord_params :=
           _buildParams S (wrapped sell_) amount (wrapped buy_) limit method;
         ord_currency := Some (if wrapped buy_ =? "DAI" then DAI else WETH);
         ord_options := _buildOptions S amount sell_ method None |} in
    (o, snd (log (allowance_events (wrapped sell_) proxy
                    ++ [SellOrderBuilt o]) w2)).
Proof.
  unfold sell, bind, OtcSellOrder_build, allowance_events, wrapped, _otcProxy.
  destruct (_checkProxy S sell_ w) as [proxy w1].
  destruct (_minBuyAmount S _ _ amount w1) as [limit w2].
  destruct (Js.truthy proxy); run; rewrite <- ?app_assoc; reflexivity.
Qed.

Lemma sell_run sell_ buy_ amount w :
  fst (sell S sell_ buy_ amount w) = sell_order S w sell_ buy_ amount /\
  trace (snd (sell S sell_ buy_ amount w)) =
    (trace w ++ new_events (_checkProxy S sell_) w
       ++ buy_quote_events S w (wrapped buy_) (wrapped sell_) amount
       ++ allowance_events (wrapped sell_) (fst (_checkProxy S sell_ w))
       ++ [SellOrderBuilt (sell_order S w sell_ buy_ amount)])%list /\
  _buyAmount (snd (sell S sell_ buy_ amount w)) =
    Some (used_buy_quote S w (wrapped buy_) (wrapped sell_) amount) /\
  _payAmount (snd (sell S sell_ buy_ amount w)) = _payAmount w /\
  _slippage (snd (sell S sell_ buy_ amount w)) = _slippage w.
Proof.
  destruct (usable_after_checkProxy sell_ w) as (Hb & Hp & Hs).
  destruct (checkProxy_fields S sell_ w) as (_ & _ & _ & es & Htr & _).
  rewrite (new_events_app _ _ _ Htr), sell_eq.
  unfold sell_order, used_buy_quote, buy_quote_events.
  destruct (_checkProxy S sell_ w) as [proxy w1]; cbn [fst snd] in *.
  rewrite <- Hb, <- Hs.
  destruct (usable S (_buyAmount w1)) as [q|] eqn:Hu.
  - rewrite (minBuyAmount_memo S _ _ _ _ _ Hu); cbn.
    rewrite Htr, Hp, <- !app_assoc. repeat split.
    unfold usable in Hu. destruct (_buyAmount w1) as [q0|]; [|discriminate].
    destruct (quote_truthy S q0); congruence.
  - rewrite (minBuyAmount_fresh S _ _ _ _ Hu), getBuyAmount_run; cbn.
    rewrite Htr, Hp, <- !app_assoc. repeat split.
Qed.

Lemma buy_eq buy_ sell_ amount w :
  buy S buy_ sell_ amount w =
    let (proxy, w1) := _checkProxy S sell_ w in
    let (limit, w2) :=
      _maxPayAmount S (wrapped sell_) (wrapped buy_) amount w1 in
    let method := _setMethod sell_ buy_ "buyAllAmount" proxy in
    let o :=
      {| ord_contract := OASIS_PROXY;
         ord_method := method;
         ord_params :=
           _buildParams S (wrapped buy_) amount (wrapped sell_) limit method;
         ord_currency := Some (buy_settlement S method);
         ord_options := _buildOptions S amount sell_ method (Some limit) |} in
    (o, snd (log (allowance_events (wrapped sell_) proxy
                    ++ [BuyOrderBuilt o]) w2)).
Proof.
  unfold buy, bind, OtcBuyOrder_build, allowance_events, wrapped, _otcProxy.
  destruct (_checkProxy S sell_ w) as [proxy w1].
  destruct (_maxPayAmount S _ _ amount w1) as [limit w2].
  destruct (Js.truthy proxy); run; rewrite <- ?app_assoc; reflexivity.
Qed.

Lemma buy_run buy_ sell_ amount w :
  fst (buy S buy_ sell_ amount w) = buy_order S w buy_ sell_ amount /\
  trace (snd (buy S buy_ sell_ amount w)) =
    (trace w ++ new_events (_checkProxy S sell_) w
       ++ pay_quote_events S w (wrapped sell_) (wrapped buy_) amount
       ++ allowance_events (wrapped sell_) (fst (_checkProxy S sell_ w))
       ++ [BuyOrderBuilt (buy_order S w buy_ sell_ amount)])%list /\
  _payAmount (snd (buy S buy_ sell_ amount w)) =
    Some (used_pay_quote S w (wrapped sell_) (wrapped buy_) amount) /\
  _buyAmount (snd (buy S buy_ sell_ amount w)) = _buyAmount w /\
  _slippage (snd (buy S buy_ sell_ amount w)) = _slippage w.
Proof.
  destruct (usable_after_checkProxy sell_ w) as (Hb & Hp & Hs).
  destruct (checkProxy_fields S sell_ w) as (_ & _ & _ & es & Htr & _).
  rewrite (new_events_app _ _ _ Htr), buy_eq.
  unfold buy_order, used_pay_quote, pay_quote_events.
  destruct (_checkProxy S sell_ w) as [proxy w1]; cbn [fst snd] in *.
  rewrite <- Hp, <- Hs.
  destruct (usable S (_payAmount w1)) as [q|] eqn:Hu.
  - rewrite (maxPayAmount_memo S _ _ _ _ _ Hu); cbn.
    rewrite Htr, Hb, <- !app_assoc. repeat split.
    unfold usable in Hu. destruct (_payAmount w1) as [q0|]; [|discriminate].
    destruct (quote_truthy S q0); congruence.
  - rewrite (maxPayAmount_fresh S _ _ _ _ Hu), getPayAmount_run; cbn.
    rewrite Htr, Hb, <- !app_assoc. repeat split.
Qed.

End Orders.

(** ** The orders handed to the transaction manager *)

Lemma wrapped_not_native asset : asset <> "ETH" -> wrapped asset = asset.
Proof.
  intros H; unfold wrapped; apply String.eqb_neq in H; rewrite H; reflexivity.
Qed.

Lemma buildOptions_spec (S : services) (amount : Amount S) sellToken method
  maxPayAmount :
  In method (sell_variants ++ buy_variants) ->
  _buildOptions S amount sellToken method maxPayAmount =
    spec_options S amount sellToken method maxPayAmount.
Proof.
  intros H; cbn in H.
  repeat (destruct H as [<- | H]; [reflexivity|]).
  destruct H.
Qed.

Lemma sell_limit_in_params (S : services) sendToken (amount : Amount S)
  buyToken limit method :
  In method sell_variants ->
  In (Amt limit) (_buildParams S sendToken amount buyToken limit method).
Proof.
  intros H; cbn in H.
  repeat (destruct H as [<- | H]; [cbn; tauto|]).
  destruct H.
Qed.

(** C5. Selling the native asset for a token when the caller has no proxy
    selects createAndSellAllAmountPayEth, builds the parameters
    [registry address, exchange address, DAI's address, integer limit] in
    that order, and attaches the wrapped-native integer amount being sold as
    value; the third parameter is the bought token's address when that token
    is DAI. *)
Theorem sell_native_without_proxy :
  forall (S : services) (w : world) (buy_ : string) (amount : Amount S),
    buy_ <> "ETH" -> Js.truthy (proxy_current w) = false ->
    let o := fst (sell S "ETH" buy_ amount w) in
    ord_method o = "createAndSellAllAmountPayEth" /\
    ord_params o =
      [Addr (contractAddress S PROXY_REGISTRY);
       Addr (contractAddress S MAKER_OTC);
       Addr (tokenAddress S "DAI");
       Amt (minBuyBound (_slippage w)
              (used_buy_quote S w buy_ "WETH" amount))] /\
    opt_value (ord_options o) = Some (valueForContract S amount "WETH") /\
    (buy_ = "DAI" ->
     nth_error (ord_params o) 2 = Some (Addr (tokenAddress S buy_))).
Proof.
  intros S w buy_ amount Hb Hp; cbn zeta.
  destruct (sell_run S "ETH" buy_ amount w) as (-> & _).
  unfold sell_order.
  rewrite (checkProxy_none S w Hp), (wrapped_not_native _ Hb).
  apply String.eqb_neq in Hb.
  unfold _setMethod; rewrite Hb; cbn.
  repeat split. intros ->; reflexivity.
Qed.

Lemma sell_native_without_proxy_witness :
  ord_method (fst (sell Demo.svc "ETH" "DAI" 1%Z Demo.no_proxy)) =
    "createAndSellAllAmountPayEth" /\
  ord_params (fst (sell Demo.svc "ETH" "DAI" 1%Z Demo.no_proxy)) =
    [Addr "0xREGISTRY"; Addr "0xOTC"; Addr "0xDAI";
     Amt (Wei 1960000000000000000)].
Proof.
  destruct (sell_native_without_proxy Demo.svc Demo.no_proxy "DAI" 1%Z
              ltac:(discriminate) eq_refl) as (Hm & Hp & _).
  split; [exact Hm | rewrite Hp; reflexivity].
Defined.

(** C5, as stated, fails: selling the native asset for MKR without a proxy
    puts DAI's address, not MKR's, in the bought-token slot. *)
Lemma sell_native_for_other_token_counterexample :
  let o := fst (sell Demo.svc "ETH" "MKR" 1%Z Demo.no_proxy) in
  ord_method o = "createAndSellAllAmountPayEth" /\
  nth_error (ord_params o) 2 = Some (Addr (tokenAddress Demo.svc "DAI")) /\
  nth_error (ord_params o) 2 <> Some (Addr (tokenAddress Demo.svc "MKR")).
Proof. vm_compute. repeat split. discriminate. Qed.

(** C6. The options of every order built by [sell] and [buy] are, in first
    match order: value = the maximal acceptable pay amount when the variant
    is buyAllAmountPayEth or createAndBuyAllAmountPayEth; else value = the
    wrapped-native integer amount when the sell asset is native; else no
    value; and the proxy flag is set unless the variant is a createAnd
    entry point.  A purchase paid in the native asset through an existing
    proxy is buyAllAmountPayEth with the maximal pay amount attached. *)
Theorem options_of_constructed_orders :
  forall (S : services) (w : world) (sell_ buy_ : string) (amount : Amount S),
    let os := fst (sell S sell_ buy_ amount w) in
    let ob := fst (buy S buy_ sell_ amount w) in
    let maxPay :=
      maxPayBound (_slippage w)
        (used_pay_quote S w (wrapped sell_) (wrapped buy_) amount) in
    ord_options os = spec_options S amount sell_ (ord_method os) None /\
    ord_options ob = spec_options S amount sell_ (ord_method ob) (Some maxPay)
    /\
    (sell_ = "ETH" -> buy_ <> "ETH" ->
     Js.truthy (proxy_current w) = true ->
     ord_method ob = "buyAllAmountPayEth" /\
     opt_value (ord_options ob) = Some maxPay /\
     opt_dsProxy (ord_options ob) = Some true).
Proof.
  intros S w sell_ buy_ amount; cbn zeta.
  destruct (sell_run S sell_ buy_ amount w) as (-> & _).
  destruct (buy_run S buy_ sell_ amount w) as (-> & _).
  unfold sell_order, buy_order; cbn [ord_options ord_method].
  split; [|split].
  - apply buildOptions_spec, in_or_app; left; apply setMethod_sell_variants.
  - apply buildOptions_spec, in_or_app; right; apply setMethod_buy_variants.
  - intros -> Hb Hp.
    rewrite (checkProxy_existing S _ _ Hp); cbn [fst].
    apply String.eqb_neq in Hb.
    unfold _setMethod; rewrite Hb, Hp; cbn. repeat split.
Qed.

Lemma options_of_constructed_orders_witness :
  let ob := fst (buy Demo.svc "DAI" "ETH" 1%Z Demo.with_proxy) in
  ord_method ob = "buyAllAmountPayEth" /\
  opt_value (ord_options ob) = Some (Wei 510000000000000000) /\
  opt_dsProxy (ord_options ob) = Some true.
Proof.
  exact (proj2 (proj2 (options_of_constructed_orders
                         Demo.svc Demo.with_proxy "ETH" "DAI" 1%Z))
           eq_refl ltac:(discriminate) eq_refl).
Defined.


(** ** The allowance requirement *)

Lemma checkProxy_events_no_allowance (S : services) sellCurrency w :
  forallb (fun e => negb (is_allowance_event e))
    (new_events (_checkProxy S sellCurrency) w) = true.
Proof.
  rewrite checkProxy_new_events.
  destruct (Js.truthy (proxy_current w)); [reflexivity|].
  destruct (negb (sellCurrency =? "ETH")); reflexivity.
Qed.

Lemma quote_events_no_allowance (S : services) w t1 t2 (a : Amount S) :
  forallb (fun e => negb (is_allowance_event e))
    (buy_quote_events S w t1 t2 a) = true /\
  forallb (fun e => negb (is_allowance_event e))
    (pay_quote_events S w t1 t2 a) = true.
Proof.
  unfold buy_quote_events, pay_quote_events.
  destruct (usable S (_buyAmount w)), (usable S (_payAmount w)); split;
    reflexivity.
Qed.

(** C8. In every sale and every purchase the allowance requirement is
    called exactly when the resolved proxy handle is truthy, for the token
    sold and that handle; the call and its settlement come after the proxy
    and quote steps and before the order is built: the construction awaits
    the call and only then hands the order over. *)
Theorem allowance_required_before_order :
  forall (S : services) (w : world) (sell_ buy_ : string) (amount : Amount S),
    let proxy := fst (_checkProxy S sell_ w) in
    let c := Allowance_requireAllowance (wrapped sell_) proxy in
    (exists pre,
        forallb (fun e => negb (is_allowance_event e)) pre = true /\
        new_events (sell S sell_ buy_ amount) w =
          (pre ++ (if Js.truthy proxy then [Called c; Settled c] else [])
               ++ [SellOrderBuilt (fst (sell S sell_ buy_ amount w))])%list)
    /\
    (exists pre,
        forallb (fun e => negb (is_allowance_event e)) pre = true /\
        new_events (buy S buy_ sell_ amount) w =
          (pre ++ (if Js.truthy proxy then [Called c; Settled c] else [])
               ++ [BuyOrderBuilt (fst (buy S buy_ sell_ amount w))])%list).
Proof.
  intros S w sell_ buy_ amount; cbn zeta; split.
  - destruct (sell_run S sell_ buy_ amount w) as (-> & Htr & _).
    exists (new_events (_checkProxy S sell_) w
              ++ buy_quote_events S w (wrapped buy_) (wrapped sell_) amount)%list.
    split.
    + rewrite forallb_app, checkProxy_events_no_allowance.
      apply quote_events_no_allowance.
    + apply new_events_app; rewrite Htr, <- !app_assoc; reflexivity.
  - destruct (buy_run S buy_ sell_ amount w) as (-> & Htr & _).
    exists (new_events (_checkProxy S sell_) w
              ++ pay_quote_events S w (wrapped sell_) (wrapped buy_) amount)%list.
    split.
    + rewrite forallb_app, checkProxy_events_no_allowance.
      apply quote_events_no_allowance.
    + apply new_events_app; rewrite Htr, <- !app_assoc; reflexivity.
Qed.

(** C8, as stated, fails: a sale of DAI through an existing proxy sees the
    allowance call settle before the order is built, so the call is
    awaited. *)
Lemma allowance_is_awaited_counterexample :
  ~ allowance_not_awaited
      (new_events (sell Demo.svc "DAI" "ETH" 1%Z) Demo.with_proxy) /\
  ~ allowance_not_awaited
      (new_events (buy Demo.svc "ETH" "DAI" 1%Z) Demo.with_proxy).
Proof.
  split; intros H; apply H.
  - exists [Called Proxy_currentProxy; Settled Proxy_currentProxy;
            Called (Otc_getBuyAmount "0xWETH" "0xDAI"
                      (Wei 1000000000000000000));
            Settled (Otc_getBuyAmount "0xWETH" "0xDAI"
                       (Wei 1000000000000000000));
            Called (Allowance_requireAllowance "DAI" (Js.Str "0xMYPROXY"))],
      "DAI", (Js.Str "0xMYPROXY").
    eexists; eexists; split; [vm_compute; reflexivity|].
    left; left; reflexivity.
  - exists [Called Proxy_currentProxy; Settled Proxy_currentProxy;
            Called (Otc_getPayAmount "0xDAI" "0xWETH"
                      (Wei 1000000000000000000));
            Settled (Otc_getPayAmount "0xDAI" "0xWETH"
                       (Wei 1000000000000000000));
            Called (Allowance_requireAllowance "DAI" (Js.Str "0xMYPROXY"))],
      "DAI", (Js.Str "0xMYPROXY").
    eexists; eexists; split; [vm_compute; reflexivity|].
    right; left; reflexivity.
Qed.

(** ** The memoized quotes *)

Lemma usable_used_buy (S : services) w q t1 t2 (a : Amount S) :
  usable S (_buyAmount w) = Some q -> used_buy_quote S w t1 t2 a = q.
Proof. unfold used_buy_quote; intros ->; reflexivity. Qed.

Lemma usable_used_pay (S : services) w q t1 t2 (a : Amount S) :
  usable S (_payAmount w) = Some q -> used_pay_quote S w t1 t2 a = q.
Proof. unfold used_pay_quote; intros ->; reflexivity. Qed.

Lemma checkProxy_events_no_quote (S : services) sellCurrency w :
  forallb (fun e => negb (is_quote_event e))
    (new_events (_checkProxy S sellCurrency) w) = true.
Proof.
  rewrite checkProxy_new_events.
  destruct (Js.truthy (proxy_current w)); [reflexivity|].
  destruct (negb (sellCurrency =? "ETH")); reflexivity.
Qed.

Lemma allowance_events_no_quote token proxy :
  forallb (fun e => negb (is_quote_event e)) (allowance_events token proxy)
    = true.
Proof. unfold allowance_events; destruct (Js.truthy proxy); reflexivity. Qed.

(** C3. A quote, once memoized and truthy, is what every slippage
    computation works from, without a query of the exchange: in the sale
    (purchase) under construction and in every later one, whatever its
    assets and amount.  The memo is never cleared: after any sale
    (purchase) it holds the quote that one used, and only a query
    overwrites it, which the slippage computation issues, once, when no
    usable memo is there. *)
Theorem memo_outlives_the_order :
  forall (S : services) (w : world) (sell_ buy_ : string) (amount : Amount S),
    let ws := snd (sell S sell_ buy_ amount w) in
    let wb := snd (buy S buy_ sell_ amount w) in
    (forall q, usable S (_buyAmount w) = Some q ->
       In (Amt (minBuyBound (_slippage w) q))
          (ord_params (fst (sell S sell_ buy_ amount w))) /\
       forallb (fun e => negb (is_quote_event e))
          (new_events (sell S sell_ buy_ amount) w) = true /\
       usable S (_buyAmount ws) = Some q) /\
    (forall q, usable S (_payAmount w) = Some q ->
       ord_options (fst (buy S buy_ sell_ amount w)) =
         _buildOptions S amount sell_
           (ord_method (fst (buy S buy_ sell_ amount w)))
           (Some (maxPayBound (_slippage w) q)) /\
       forallb (fun e => negb (is_quote_event e))
          (new_events (buy S buy_ sell_ amount) w) = true /\
       usable S (_payAmount wb) = Some q) /\
    (usable S (_buyAmount w) = None ->
       _buyAmount ws =
         Some (fresh_buy_quote S (wrapped buy_) (wrapped sell_) amount) /\
       sell_requeries S w sell_ buy_ amount) /\
    (exists q, _buyAmount ws = Some q) /\
    (exists q, _payAmount wb = Some q).
Proof.
  intros S w sell_ buy_ amount; cbn zeta.
  destruct (sell_run S sell_ buy_ amount w) as (Hso & Hst & Hsm & _).
  destruct (buy_run S buy_ sell_ amount w) as (Hbo & Hbt & Hbm & _).
  split; [|split; [|split; [|split]]].
  - intros q Hq. rewrite Hso, Hsm. unfold sell_order; cbn [ord_params].
    rewrite (usable_used_buy S w q _ _ _ Hq).
    split; [|split].
    + apply sell_limit_in_params, setMethod_sell_variants.
    + rewrite (new_events_app _ _ _ Hst).
      unfold buy_quote_events; rewrite Hq, !forallb_app.
      rewrite checkProxy_events_no_quote, allowance_events_no_quote.
      reflexivity.
    + unfold usable in *. destruct (_buyAmount w) as [q0|]; [|discriminate].
      destruct (quote_truthy S q0) eqn:Hq0; [|discriminate].
      injection Hq as <-; rewrite Hq0; reflexivity.
  - intros q Hq. rewrite Hbo, Hbm. unfold buy_order;
      cbn [ord_options ord_method].
    rewrite (usable_used_pay S w q _ _ _ Hq).
    split; [|split].
    + reflexivity.
    + rewrite (new_events_app _ _ _ Hbt).
      unfold pay_quote_events; rewrite Hq, !forallb_app.
      rewrite checkProxy_events_no_quote, allowance_events_no_quote.
      reflexivity.
    + unfold usable in *. destruct (_payAmount w) as [q0|]; [|discriminate].
      destruct (quote_truthy S q0) eqn:Hq0; [|discriminate].
      injection Hq as <-; rewrite Hq0; reflexivity.
  - intros Hn; split.
    + rewrite Hsm; unfold used_buy_quote; rewrite Hn; reflexivity.
    + unfold sell_requeries; rewrite (new_events_app _ _ _ Hst).
      unfold buy_quote_events; rewrite Hn.
      apply in_or_app; right; left; reflexivity.
  - eexists; exact Hsm.
  - eexists; exact Hbm.
Qed.

Lemma memo_outlives_the_order_witness :
  let w1 := snd (sell Demo.svc "DAI" "ETH" 1%Z Demo.with_proxy) in
  In (Amt (Wei 1960000000000000000))
     (ord_params (fst (sell Demo.svc "MKR" "DAI" 5%Z w1))) /\
  sell_requeries Demo.svc Demo.with_proxy "DAI" "ETH" 1%Z.
Proof.
  split.
  - exact (proj1 (proj1 (memo_outlives_the_order Demo.svc
             (snd (sell Demo.svc "DAI" "ETH" 1%Z Demo.with_proxy))
             "MKR" "DAI" 5%Z) 2000000000000000000%Z eq_refl)).
  - exact (proj2 (proj1 (proj2 (proj2 (memo_outlives_the_order Demo.svc
             Demo.with_proxy "DAI" "ETH" 1%Z))) eq_refl)).
Defined.

(** C3, as stated, fails: after a sale of 1 DAI a separate sale of 5 DAI
    does not ask the exchange again; its limit comes from the quote of the
    first sale, not from the quote its own amount would get. *)
Lemma stale_quote_counterexample :
  let w1 := snd (sell Demo.svc "DAI" "ETH" 1%Z Demo.with_proxy) in
  ~ sell_requeries Demo.svc w1 "DAI" "ETH" 5%Z /\
  fresh_buy_quote Demo.svc "WETH" "DAI" 5%Z = 10000000000000000000%Z /\
  nth_error (ord_params (fst (sell Demo.svc "DAI" "ETH" 5%Z w1))) 4 =
    Some (Amt (minBuyBound Number.lit_0_02 2000000000000000000)) /\
  minBuyBound Number.lit_0_02 2000000000000000000 <>
    minBuyBound Number.lit_0_02 10000000000000000000.
Proof.
  cbn zeta; split; [|split; [|split]].
  - unfold sell_requeries. vm_compute.
    intros [H | [H | [H | [H | [H | []]]]]]; discriminate.
  - reflexivity.
  - vm_compute; reflexivity.
  - vm_compute; discriminate.
Qed.

(** ** Quote queries *)

(** C7. Both quote methods convert the fixed human-unit amount to contract
    integer units before they query the exchange ([getPayAmount] with the
    conversion of the bought token, the asset of its amount), and they
    return, and memoize, the integer the exchange answers, unchanged. *)
Theorem quotes_convert_then_query :
  forall (S : services) (w : world) (t1 t2 : string) (amount : Amount S),
    (exists symbol,
        let units := valueForContract S amount symbol in
        let c := Otc_getBuyAmount (tokenAddress S t1) (tokenAddress S t2)
                   units in
        new_events (getBuyAmount S t1 t2 amount) w = [Called c; Settled c] /\
        fst (getBuyAmount S t1 t2 amount w) =
          otc_getBuyAmount S (tokenAddress S t1) (tokenAddress S t2) units /\
        _buyAmount (snd (getBuyAmount S t1 t2 amount w)) =
          Some (fst (getBuyAmount S t1 t2 amount w))) /\
    (let units := valueForContract S amount t2 in
     let c := Otc_getPayAmount (tokenAddress S t1) (tokenAddress S t2)
                units in
     new_events (getPayAmount S t1 t2 amount) w = [Called c; Settled c] /\
     fst (getPayAmount S t1 t2 amount w) =
       otc_getPayAmount S (tokenAddress S t1) (tokenAddress S t2) units /\
     _payAmount (snd (getPayAmount S t1 t2 amount w)) =
       Some (fst (getPayAmount S t1 t2 amount w))).
Proof.
  intros S w t1 t2 amount; split.
  - exists t1; cbn zeta. rewrite getBuyAmount_run; cbn [fst snd _buyAmount].
    split; [|split]; try reflexivity.
    apply new_events_app; rewrite getBuyAmount_run; reflexivity.
  - cbn zeta. rewrite getPayAmount_run; cbn [fst snd _payAmount].
    split; [|split]; try reflexivity.
    apply new_events_app; rewrite getPayAmount_run; reflexivity.
Qed.

(** C7, as stated, fails: asked what 1 WETH buys in DAI, [getBuyAmount]
    answers the exchange's integer 2000000000000000000, which is not the
    human-unit amount 2 of that quote. *)
Lemma quote_not_human_unit_counterexample :
  let quote := fresh_buy_quote Demo.svc "DAI" "WETH" 1%Z in
  let result := fst (getBuyAmount Demo.svc "DAI" "WETH" 1%Z Demo.with_proxy) in
  human_unit_of Demo.svc "DAI" 2%Z quote /\
  result = 2000000000000000000%Z /\
  ~ human_unit_of Demo.svc "DAI" result quote.
Proof.
  cbn zeta; split; [|split].
  - reflexivity.
  - reflexivity.
  - unfold human_unit_of; vm_compute; discriminate.
Qed.

(** ** JavaScript numbers: integers below 2^53 are exact *)

Module NumberFacts.

Local Open Scope Z_scope.

Lemma digits2_pos_size p : digits2_pos p = Pos.size p.
Proof. induction p; cbn; congruence. Qed.

Lemma digits_upper p : Zpos p < 2 ^ Zpos (digits2_pos p).
Proof.
  rewrite digits2_pos_size, <- Pos2Z.inj_pow.
  apply Pos2Z.pos_lt_pos, Pos.size_gt.
Qed.

Lemma digits_lower p : 2 ^ (Zpos (digits2_pos p) - 1) <= Zpos p.
Proof.
  rewrite digits2_pos_size.
  pose proof (Pos.size_le p) as H.
  apply Pos2Z.pos_le_pos in H. rewrite Pos2Z.inj_pow in H.
  change (Zpos p~0) with (2 * Zpos p) in H.
  replace (Zpos (Pos.size p)) with (Z.succ (Zpos (Pos.size p) - 1)) in H
    by lia.
  rewrite Z.pow_succ_r in H by lia. lia.
Qed.

Lemma digits_le p k : 0 <= k -> Zpos p < 2 ^ k -> Zpos (digits2_pos p) <= k.
Proof.
  intros Hk H. pose proof (digits_lower p) as Hl.
  destruct (Z.le_gt_cases (Zpos (digits2_pos p)) k) as [|Hgt]; [assumption|].
  exfalso.
  assert (2 ^ k <= 2 ^ (Zpos (digits2_pos p) - 1))
    by (apply Z.pow_le_mono_r; lia).
  lia.
Qed.

Lemma digits_ge p k : 0 <= k -> 2 ^ k <= Zpos p -> k + 1 <= Zpos (digits2_pos p).
Proof.
  intros Hk H. pose proof (digits_upper p) as Hu.
  destruct (Z.le_gt_cases (k + 1) (Zpos (digits2_pos p))) as [|Hgt];
    [assumption|].
  exfalso.
  assert (2 ^ Zpos (digits2_pos p) <= 2 ^ k)
    by (apply Z.pow_le_mono_r; lia).
  lia.
Qed.

Lemma iter_pos_nat {A : Type} (f : A -> A) p x :
  iter_pos f p x = Nat.iter (Pos.to_nat p) f x.
Proof.
  revert x; induction p as [p IH | p IH |]; intros x; cbn [iter_pos].
  - rewrite !IH, Pos2Nat.inj_xI.
    replace (S (2 * Pos.to_nat p))%nat
      with (Pos.to_nat p + (Pos.to_nat p + 1))%nat by lia.
    rewrite !Nat.iter_add. reflexivity.
  - rewrite !IH, Pos2Nat.inj_xO.
    replace (2 * Pos.to_nat p)%nat with (Pos.to_nat p + Pos.to_nat p)%nat
      by lia.
    rewrite Nat.iter_add. reflexivity.
  - reflexivity.
Qed.

Lemma shr_1_nonneg m r s :
  0 <= m ->
  shr_1 (Build_shr_record m r s) = Build_shr_record (m / 2) (Z.odd m) (r || s).
Proof.
  intros Hm. rewrite <- Z.div2_div.
  destruct m as [|[p|p|]|p]; try lia; reflexivity.
Qed.

(** What [n] halvings leave of a mantissa: the quotient, a round bit that is
    set only above the half, and no bit at all when nothing is lost. *)
Lemma shr_iter P n :
  0 <= P ->
  let R := Nat.iter n shr_1 (Build_shr_record P false false) in
  shr_m R = P / 2 ^ Z.of_nat n /\
  (shr_r R = true -> 2 ^ (Z.of_nat n - 1) <= P mod 2 ^ Z.of_nat n) /\
  (P mod 2 ^ Z.of_nat n = 0 -> shr_r R = false /\ shr_s R = false).
Proof.
  intros HP; induction n as [|n IH]; cbn zeta.
  - cbn. rewrite Z.div_1_r. repeat split; congruence.
  - cbn zeta in IH. rewrite Nat.iter_succ.
    destruct (Nat.iter n shr_1 _) as [m r s]; cbn [shr_m shr_r shr_s] in IH.
    destruct IH as (Hm & Hr & Hz).
    assert (H2n : 0 < 2 ^ Z.of_nat n) by (apply Z.pow_pos_nonneg; lia).
    assert (Hm0 : 0 <= m) by (subst m; apply Z.div_pos; lia).
    rewrite shr_1_nonneg by assumption; cbn [shr_m shr_r shr_s].
    rewrite Nat2Z.inj_succ, Z.pow_succ_r by lia.
    replace (Z.succ (Z.of_nat n) - 1) with (Z.of_nat n) by lia.
    assert (Hmod : P mod (2 ^ Z.of_nat n * 2) =
                   P mod 2 ^ Z.of_nat n + 2 ^ Z.of_nat n * (m mod 2)).
    { subst m. apply Z.rem_mul_r; lia. }
    rewrite (Z.mul_comm 2), Hmod.
    pose proof (Z.mod_pos_bound P (2 ^ Z.of_nat n) H2n) as Hb.
    rewrite (Zmod_odd m).
    split; [|split].
    + subst m. rewrite Z.div_div by lia. reflexivity.
    + intros ->. lia.
    + destruct (Z.odd m); [nia|].
      intros H0. assert (P mod 2 ^ Z.of_nat n = 0) by lia.
      destruct (Hz H) as (-> & ->). split; reflexivity.
Qed.

Lemma round_nearest_even_bounds m r s :
  let m1 := round_nearest_even m
              (loc_of_shr_record (Build_shr_record m r s)) in
  m <= m1 <= m + 1 /\ (m1 = m + 1 -> r = true) /\
  (r = false -> m1 = m).
Proof.
  destruct r, s; cbn; try destruct (Z.even m); repeat split; try lia; congruence.
Qed.

(** The first stage of rounding: shift right by [sh] places and round to
    nearest. *)
Lemma shr_round P e sh :
  0 <= P -> 0 <= sh ->
  let mrs := fst (shr (Build_shr_record P false false) e sh) in
  let m1 := round_nearest_even (shr_m mrs) (loc_of_shr_record mrs) in
  snd (shr (Build_shr_record P false false) e sh) = e + sh /\
  P / 2 ^ sh <= m1 <= P / 2 ^ sh + 1 /\
  (m1 = P / 2 ^ sh + 1 -> 2 ^ (sh - 1) <= P mod 2 ^ sh) /\
  (P mod 2 ^ sh = 0 -> m1 = P / 2 ^ sh).
Proof.
  intros HP Hsh. destruct sh as [|k|k]; try lia.
  - cbn. rewrite Z.div_1_r. repeat split; lia.
  - cbn [shr fst snd]. rewrite iter_pos_nat.
    pose proof (shr_iter P (Pos.to_nat k) HP) as H; cbn zeta in H.
    rewrite positive_nat_Z in H.
    destruct (Nat.iter (Pos.to_nat k) shr_1 _) as [m r s].
    cbn [shr_m shr_r shr_s] in *.
    destruct H as (Hm & Hr & Hz).
    pose proof (round_nearest_even_bounds m r s) as (Hb & Hup & Hdn).
    subst m. repeat split; try lia.
    + intros H1. apply Hr, Hup, H1.
    + intros H0. destruct (Hz H0) as (-> & _). apply Hdn; reflexivity.
Qed.

(** The second stage: a rounded mantissa of at most 2^53 is renormalized
    without loss. *)
Lemma round_tail sx m1 e1 :
  0 <= m1 <= 2 ^ 53 -> -1074 <= e1 ->
  let R :=
    let '(mrs, e2) := shr_fexp Number.prec Number.emax m1 e1 loc_Exact in
    match shr_m mrs with
    | Z0 => S754_zero sx
    | Zpos m => if e2 <=? Number.emax - Number.prec
                then S754_finite sx m e2 else S754_infinity sx
    | Zneg _ => S754_nan
    end in
  (m1 = 0 /\ R = S754_zero sx) \/
  (exists m2 e2,
      Zpos m2 * 2 ^ (e2 - e1) = m1 /\ e1 <= e2 <= e1 + 1 /\
      R = if e2 <=? 971 then S754_finite sx m2 e2 else S754_infinity sx).
Proof.
  intros Hm He; cbn zeta.
  unfold shr_fexp, fexp, emin, Number.prec, Number.emax.
  destruct m1 as [|m|m]; try lia.
  - left. cbn [Zdigits2 shr_record_of_loc].
    destruct (Z.max (0 + e1 - 53) (3 - 1024 - 53) - e1) eqn:Hs; try lia;
      cbn; auto.
  - right. cbn [Zdigits2 shr_record_of_loc].
    destruct (Z.eq_dec (Zpos m) (2 ^ 53)) as [Heq | Hne].
    + injection Heq as ->. exists 4503599627370496%positive, (e1 + 1).
      change (Zpos (digits2_pos 9007199254740992)) with 54.
      replace (Z.max (54 + e1 - 53) (3 - 1024 - 53) - e1) with 1 by lia.
      cbn [shr iter_pos shr_1 shr_m orb].
      replace (e1 + 1 - e1) with 1 by lia.
      repeat split; try lia.
    + assert (Hd : Zpos (digits2_pos m) <= 53) by (apply digits_le; lia).
      exists m, e1.
      destruct (Z.max (Zpos (digits2_pos m) + e1 - 53) (3 - 1024 - 53) - e1)
        eqn:Hs; try lia; cbn [shr shr_m];
        rewrite Z.sub_diag; repeat split; try lia.
Qed.

(** Rounding a mantissa of at least 53 digits: shift, round to nearest,
    renormalize. *)
Lemma round_aux_spec sx P e :
  53 <= Zpos (digits2_pos P) ->
  let sh := Z.max (Zpos (digits2_pos P) - 53) (-1074 - e) in
  let R := binary_round_aux Number.prec Number.emax sx (Zpos P) e loc_Exact in
  exists m1,
    (Zpos P / 2 ^ sh <= m1 <= Zpos P / 2 ^ sh + 1) /\
    (m1 = Zpos P / 2 ^ sh + 1 -> 2 ^ (sh - 1) <= Zpos P mod 2 ^ sh) /\
    (Zpos P mod 2 ^ sh = 0 -> m1 = Zpos P / 2 ^ sh) /\
    m1 <= 2 ^ 53 /\
    ((m1 = 0 /\ R = S754_zero sx) \/
     (exists m2 e2,
         Zpos m2 * 2 ^ (e2 - (e + sh)) = m1 /\
         e + sh <= e2 <= e + sh + 1 /\
         R = if e2 <=? 971 then S754_finite sx m2 e2
             else S754_infinity sx)).
Proof.
  intros Hd sh R.
  assert (Hsh : 0 <= sh) by (unfold sh; lia).
  assert (Hs1 : shr_fexp Number.prec Number.emax (Zpos P) e loc_Exact =
                shr (Build_shr_record (Zpos P) false false) e sh).
  { unfold shr_fexp. cbn [Zdigits2 shr_record_of_loc]. f_equal.
    unfold fexp, emin, Number.prec, Number.emax, sh; lia. }
  assert (HR : R =
    let '(mrs1, e1) := shr (Build_shr_record (Zpos P) false false) e sh in
    let '(mrs2, e2) :=
      shr_fexp Number.prec Number.emax
        (round_nearest_even (shr_m mrs1) (loc_of_shr_record mrs1)) e1
        loc_Exact in
    match shr_m mrs2 with
    | Z0 => S754_zero sx
    | Zpos m => if e2 <=? Number.emax - Number.prec
                then S754_finite sx m e2 else S754_infinity sx
    | Zneg _ => S754_nan
    end).
  { unfold R, binary_round_aux. rewrite Hs1. reflexivity. }
  clearbody R.
  pose proof (shr_round (Zpos P) e sh ltac:(lia) Hsh) as H; cbn zeta in H.
  destruct (shr (Build_shr_record (Zpos P) false false) e sh) as [mrs e1].
  cbn [fst snd] in H. destruct H as (-> & Hb & Hup & Hex).
  set (m1 := round_nearest_even (shr_m mrs) (loc_of_shr_record mrs)) in *.
  assert (H53 : m1 <= 2 ^ 53).
  { assert (Zpos P / 2 ^ sh < 2 ^ 53); [|lia].
    apply Z.div_lt_upper_bound; [apply Z.pow_pos_nonneg; lia|].
    rewrite <- Z.pow_add_r by lia.
    pose proof (digits_upper P) as Hu.
    assert (2 ^ Zpos (digits2_pos P) <= 2 ^ (sh + 53))
      by (apply Z.pow_le_mono_r; lia).
    lia. }
  assert (H0 : 0 <= m1).
  { assert (0 <= Zpos P / 2 ^ sh); [|lia].
    apply Z.div_pos; [lia | apply Z.pow_pos_nonneg; lia]. }
  exists m1. repeat (split; [assumption || lia|]).
  pose proof (round_tail sx m1 (e + sh) ltac:(lia) ltac:(lia)) as HT.
  cbn zeta in HT. rewrite <- HR in HT. exact HT.
Qed.

(** Truncation compared with an integer, at a common scale [2^L]. *)
Lemma trunc_scaled_lt m e L q :
  L <= e -> L <= 0 ->
  Zpos m * 2 ^ (e - L) < q * 2 ^ (- L) ->
  exists z, Number.trunc (S754_finite false m e) = Some z /\ 0 <= z < q.
Proof.
  intros HLe HL0 H. unfold Number.trunc.
  assert (HpL : 0 < 2 ^ (- L)) by (apply Z.pow_pos_nonneg; lia).
  destruct e as [|k|k].
  - exists (Zpos m). cbn [Z.shiftl]. replace (0 - L) with (- L) in H by lia.
    split; [reflexivity|]. split; [lia|].
    apply (Z.mul_lt_mono_pos_r (2 ^ (- L))); assumption.
  - exists (Z.shiftl (Zpos m) (Zpos k)). split; [reflexivity|].
    rewrite Z.shiftl_mul_pow2 by lia.
    replace (Zpos k - L) with (Zpos k + - L) in H by lia.
    rewrite Z.pow_add_r, Z.mul_assoc in H by lia.
    assert (0 < 2 ^ Zpos k) by (apply Z.pow_pos_nonneg; lia).
    split; [nia|].
    apply (Z.mul_lt_mono_pos_r (2 ^ (- L))); assumption.
  - exists (Z.shiftr (Zpos m) (Zpos k)). split; [reflexivity|].
    rewrite Z.shiftr_div_pow2 by lia.
    assert (Hk : 0 < 2 ^ Zpos k) by (apply Z.pow_pos_nonneg; lia).
    split; [apply Z.div_pos; lia|].
    apply Z.div_lt_upper_bound; [assumption|].
    replace (- L) with (Zpos k + (Zneg k - L)) in H by lia.
    rewrite Z.pow_add_r, Z.mul_assoc in H by lia.
    assert (0 < 2 ^ (Zneg k - L)) by (apply Z.pow_pos_nonneg; lia).
    rewrite (Z.mul_comm (2 ^ Zpos k)).
    apply (Z.mul_lt_mono_pos_r (2 ^ (Zneg k - L))); assumption.
Qed.

Lemma trunc_scaled_ge m e L q :
  L <= e -> L <= 0 ->
  q * 2 ^ (- L) <= Zpos m * 2 ^ (e - L) ->
  exists z, Number.trunc (S754_finite false m e) = Some z /\ q <= z.
Proof.
  intros HLe HL0 H. unfold Number.trunc.
  assert (HpL : 0 < 2 ^ (- L)) by (apply Z.pow_pos_nonneg; lia).
  destruct e as [|k|k].
  - exists (Zpos m). cbn [Z.shiftl]. replace (0 - L) with (- L) in H by lia.
    split; [reflexivity|].
    apply (Z.mul_le_mono_pos_r _ _ (2 ^ (- L))); assumption.
  - exists (Z.shiftl (Zpos m) (Zpos k)). split; [reflexivity|].
    rewrite Z.shiftl_mul_pow2 by lia.
    replace (Zpos k - L) with (Zpos k + - L) in H by lia.
    rewrite Z.pow_add_r, Z.mul_assoc in H by lia.
    apply (Z.mul_le_mono_pos_r _ _ (2 ^ (- L))); assumption.
  - exists (Z.shiftr (Zpos m) (Zpos k)). split; [reflexivity|].
    rewrite Z.shiftr_div_pow2 by lia.
    assert (Hk : 0 < 2 ^ Zpos k) by (apply Z.pow_pos_nonneg; lia).
    apply Z.div_le_lower_bound; [assumption|].
    replace (- L) with (Zpos k + (Zneg k - L)) in H by lia.
    rewrite Z.pow_add_r, Z.mul_assoc in H by lia.
    assert (0 < 2 ^ (Zneg k - L)) by (apply Z.pow_pos_nonneg; lia).
    rewrite (Z.mul_comm (2 ^ Zpos k)).
    apply (Z.mul_le_mono_pos_r _ _ (2 ^ (Zneg k - L))); assumption.
Qed.

Lemma mantissa_53 m :
  digits2_pos m = 53%positive -> 2 ^ 52 <= Zpos m < 2 ^ 53.
Proof.
  intros Hd. pose proof (digits_lower m) as Hl.
  pose proof (digits_upper m) as Hu. rewrite Hd in Hl, Hu.
  exact (conj Hl Hu).
Qed.

(** A normal number times a factor below one, truncated, is below the
    integer the number stands for. *)
Lemma mul_below mx ex q mf ef :
  digits2_pos mx = 53%positive -> -52 <= ex <= 0 ->
  Zpos mx = q * 2 ^ (- ex) ->
  Zpos mf < 2 ^ 53 -> -1074 <= ef <= -53 ->
  exists z,
    Number.trunc
      (Number.mul (S754_finite false mx ex) (S754_finite false mf ef))
      = Some z /\ 0 <= z < q.
Proof.
  intros Hdx Hex Hq Hmf Hef.
  pose proof (mantissa_53 mx Hdx) as Hmx.
  unfold Number.mul, SFmul; cbn [xorb].
  set (P := (mx * mf)%positive).
  assert (HP : Zpos P = Zpos mx * Zpos mf) by reflexivity.
  assert (Hq0 : 0 < q).
  { assert (0 < 2 ^ (- ex)) by (apply Z.pow_pos_nonneg; lia). nia. }
  assert (HdP : 53 <= Zpos (digits2_pos P) <= 106).
  { split.
    - apply (digits_ge P 52); [lia|]. nia.
    - apply digits_le; [lia|].
      change (2 ^ 106) with (2 ^ 53 * 2 ^ 53). nia. }
  destruct (round_aux_spec false P (ex + ef) (proj1 HdP))
    as (m1 & Hb & Hup & Hexact & H53 & Hcase).
  set (sh := Z.max (Zpos (digits2_pos P) - 53) (-1074 - (ex + ef))) in *.
  assert (Hsh : 0 <= sh <= - ef) by (unfold sh; lia).
  set (b := - ef - sh).
  assert (Hb0 : 0 <= b) by (unfold b; lia).
  assert (HS : 0 < 2 ^ sh) by (apply Z.pow_pos_nonneg; lia).
  assert (HB : 0 < 2 ^ b) by (apply Z.pow_pos_nonneg; lia).
  assert (HA : 2 ^ (- ef) = 2 ^ b * 2 ^ sh).
  { rewrite <- Z.pow_add_r by lia. f_equal; unfold b; lia. }
  assert (HmfA : Zpos mf + 1 <= 2 ^ (- ef)).
  { assert (2 ^ 53 <= 2 ^ (- ef)) by (apply Z.pow_le_mono_r; lia). lia. }
  pose proof (Z.div_mod (Zpos P) (2 ^ sh) ltac:(lia)) as Hdm.
  pose proof (Z.mod_pos_bound (Zpos P) (2 ^ sh) HS) as Hrm.
  set (F := Zpos P / 2 ^ sh) in *. set (Rm := Zpos P mod 2 ^ sh) in *.
  set (N := Zpos mx * 2 ^ b).
  (* the product lies at least [mx] below [N * 2^sh] *)
  assert (HPN : Zpos P + Zpos mx <= N * 2 ^ sh).
  { unfold N. rewrite <- Z.mul_assoc, <- HA, HP. nia. }
  assert (HFN : F < N) by nia.
  assert (Hkey : m1 < N).
  { destruct (Z.lt_ge_cases m1 N) as [|Hge]; [assumption|exfalso].
    assert (Hm1 : m1 = F + 1) by lia.
    assert (HRm : Rm <> 0) by (intros H0; apply Hexact in H0; lia).
    assert (Hsh1 : 1 <= sh).
    { destruct (Z.eq_dec sh 0) as [H0|]; [|lia].
      rewrite H0 in Hrm. change (2 ^ 0) with 1 in Hrm. lia. }
    specialize (Hup Hm1).
    assert (Hhalf : 2 ^ sh = 2 * 2 ^ (sh - 1)).
    { rewrite <- Z.pow_succ_r by lia. f_equal; lia. }
    assert (Hmxh : Zpos mx <= 2 ^ (sh - 1)) by nia.
    assert (Hsh53 : 53 <= sh).
    { destruct (Z.lt_ge_cases sh 53) as [Hlt|]; [exfalso|assumption].
      assert (2 ^ (sh - 1) < 2 ^ 52) by (apply Z.pow_lt_mono_r; lia). lia. }
    destruct (Z.max_spec (Zpos (digits2_pos P) - 53) (-1074 - (ex + ef)))
      as [[Hlt Hmax] | [Hle Hmax]]; fold sh in Hmax.
    - (* the shift reaches the least exponent: N is far above 2^53 *)
      assert (Hb1022 : 2 ^ 2 <= 2 ^ b)
        by (apply Z.pow_le_mono_r; unfold b; lia).
      change (2 ^ 2) with 4 in Hb1022. unfold N in Hge.
      change (2 ^ 53) with (2 * 2 ^ 52) in H53. nia.
    - (* sh = 53 and mx = 2^52: the product has 105 digits, not 106 *)
      assert (sh = 53) by lia.
      assert (Hmx52 : Zpos mx = 2 ^ 52).
      { replace (sh - 1) with 52 in Hmxh by lia. lia. }
      assert (Zpos (digits2_pos P) <= 105); [|lia].
      apply digits_le; [lia|]. rewrite HP, Hmx52.
      change (2 ^ 105) with (2 ^ 52 * 2 ^ 53). nia. }
  destruct Hcase as [(Hz & ->) | (m2 & e2 & Hm2 & He2 & ->)].
  - exists 0. split; [reflexivity | lia].
  - replace (e2 <=? 971) with true by (symmetry; apply Z.leb_le; lia).
    apply (trunc_scaled_lt m2 e2 (ex + ef + sh) q); try lia.
    rewrite Hm2.
    replace (- (ex + ef + sh)) with (- ex + b) by (unfold b; lia).
    rewrite Z.pow_add_r, Z.mul_assoc, <- Hq by lia. exact Hkey.
Qed.

(** A normal number times a factor of at least one, truncated, is at least
    the integer the number stands for. *)
Lemma mul_above mx ex q mf ef z :
  digits2_pos mx = 53%positive -> -52 <= ex <= 0 ->
  Zpos mx = q * 2 ^ (- ex) ->
  digits2_pos mf = 53%positive -> -52 <= ef ->
  Number.trunc
    (Number.mul (S754_finite false mx ex) (S754_finite false mf ef))
    = Some z ->
  q <= z.
Proof.
  intros Hdx Hex Hq Hdf Hef.
  pose proof (mantissa_53 mx Hdx) as Hmx.
  pose proof (mantissa_53 mf Hdf) as Hmf.
  unfold Number.mul, SFmul; cbn [xorb].
  set (P := (mx * mf)%positive).
  assert (HP : Zpos P = Zpos mx * Zpos mf) by reflexivity.
  assert (HdP : 105 <= Zpos (digits2_pos P) <= 106).
  { split.
    - apply (digits_ge P 104); [lia|].
      change (2 ^ 104) with (2 ^ 52 * 2 ^ 52). nia.
    - apply digits_le; [lia|].
      change (2 ^ 106) with (2 ^ 53 * 2 ^ 53). nia. }
  destruct (round_aux_spec false P (ex + ef) ltac:(lia))
    as (m1 & Hb & _ & _ & H53 & Hcase).
  set (sh := Z.max (Zpos (digits2_pos P) - 53) (-1074 - (ex + ef))) in *.
  assert (Hsh : sh = Zpos (digits2_pos P) - 53) by (unfold sh; lia).
  assert (HS : 0 < 2 ^ sh) by (apply Z.pow_pos_nonneg; lia).
  set (F := Zpos P / 2 ^ sh) in *.
  assert (HF52 : 2 ^ 52 <= F).
  { apply Z.div_le_lower_bound; [assumption|].
    rewrite <- Z.pow_add_r by lia.
    pose proof (digits_lower P) as Hl.
    replace (sh + 52) with (Zpos (digits2_pos P) - 1) by lia. exact Hl. }
  set (j := ef + sh).
  assert (Hj : 0 <= j) by (unfold j; lia).
  assert (Hkey : Zpos mx <= m1 * 2 ^ j).
  { destruct (Z.eq_dec j 0) as [Hj0 | Hj0].
    - rewrite Hj0, Z.mul_1_r.
      assert (Zpos mx <= F); [|lia].
      apply Z.div_le_lower_bound; [assumption|].
      assert (2 ^ sh <= 2 ^ 52) by (apply Z.pow_le_mono_r; unfold j in *; lia).
      rewrite HP. nia.
    - assert (2 ^ 1 <= 2 ^ j) by (apply Z.pow_le_mono_r; lia).
      change (2 ^ 1) with 2 in *.
      change (2 ^ 53) with (2 * 2 ^ 52) in *. nia. }
  intros Ht.
  destruct Hcase as [(Hz & _) | (m2 & e2 & Hm2 & He2 & HR)]; [lia|].
  rewrite HR in Ht.
  destruct (e2 <=? 971); [|discriminate].
  destruct (trunc_scaled_ge m2 e2 ex q) as (z' & Hz' & Hle); try lia.
  - rewrite <- Hq.
    replace (e2 - ex) with (e2 - (ex + ef + sh) + j) by (unfold j; lia).
    rewrite Z.pow_add_r, Z.mul_assoc, Hm2 by lia. exact Hkey.
  - congruence.
Qed.

Lemma compare_cont_lt p q :
  Pos.compare_cont Eq p q = Lt -> Zpos p < Zpos q.
Proof.
  intros H. apply Pos2Z.pos_lt_pos. unfold Pos.lt.
  rewrite Pos.compare_cont_spec in H.
  destruct (p ?= q)%positive; (discriminate || reflexivity).
Qed.

(** The shapes of a factor below one and of a factor of at least one. *)
Lemma factor_below_one f :
  valid_binary Number.prec Number.emax f = true ->
  SFleb Number.zero f = true -> SFltb f Number.one = true ->
  (exists s, f = S754_zero s) \/
  (exists mf ef, f = S754_finite false mf ef /\
                 Zpos mf < 2 ^ 53 /\ -1074 <= ef <= -53).
Proof.
  unfold SFleb, SFltb, Number.zero, Number.one.
  destruct f as [s | s | | s mf ef]; cbn [SFcompare valid_binary].
  - intros _ _ _. left; exists s; reflexivity.
  - destruct s; discriminate.
  - discriminate.
  - unfold bounded, canonical_mantissa, fexp, emin, Number.prec, Number.emax.
    intros Hv Hs Hlt. destruct s; [discriminate|].
    apply andb_prop in Hv as (Hc & _). apply Z.eqb_eq in Hc.
    right. exists mf, ef. split; [reflexivity|].
    pose proof (digits_upper mf) as Hu.
    assert (Hd : Zpos (digits2_pos mf) <= 53) by lia.
    assert (2 ^ Zpos (digits2_pos mf) <= 2 ^ 53)
      by (apply Z.pow_le_mono_r; lia).
    split; [lia|].
    destruct (Z.compare_spec ef (-52)) as [He | He | He];
      try discriminate; [|lia].
    exfalso. subst ef.
    assert (Hd53 : digits2_pos mf = 53%positive) by lia.
    pose proof (mantissa_53 mf Hd53) as (Hlo & _).
    destruct (Pos.compare_cont Eq mf 4503599627370496) eqn:Hcmp;
      try discriminate.
    apply compare_cont_lt in Hcmp. clear - Hcmp Hlo. lia.
Qed.

Lemma factor_above_one f :
  valid_binary Number.prec Number.emax f = true ->
  SFleb Number.one f = true ->
  f = S754_infinity false \/
  (exists mf ef, f = S754_finite false mf ef /\
                 digits2_pos mf = 53%positive /\ -52 <= ef).
Proof.
  unfold SFleb, Number.one.
  destruct f as [s | s | | s mf ef]; cbn [SFcompare valid_binary].
  - discriminate.
  - destruct s; [discriminate|]. intros _ _; left; reflexivity.
  - discriminate.
  - unfold bounded, canonical_mantissa, fexp, emin, Number.prec, Number.emax.
    intros Hv Hle. destruct s; [discriminate|].
    apply andb_prop in Hv as (Hc & _). apply Z.eqb_eq in Hc.
    right. exists mf, ef. split; [reflexivity|].
    destruct (Z.compare_spec (-52) ef) as [He | He | He];
      try discriminate; split; lia.
Qed.

Lemma digits2_pos_iter_xO p k :
  digits2_pos (Pos.iter xO p k) = (digits2_pos p + k)%positive.
Proof.
  induction k using Pos.peano_ind.
  - cbn. lia.
  - rewrite Pos.iter_succ; cbn [digits2_pos]. rewrite IHk. lia.
Qed.

Lemma Zpos_iter_xO p k : Zpos (Pos.iter xO p k) = Zpos p * 2 ^ Zpos k.
Proof.
  induction k using Pos.peano_ind.
  - cbn. lia.
  - rewrite Pos.iter_succ, Pos2Z.inj_xO, IHk, Pos2Z.inj_succ, Z.pow_succ_r;
      lia.
Qed.

(** A mantissa of 53 digits with an exponent in range is its own rounding. *)
Lemma round_aux_canonical s m e :
  digits2_pos m = 53%positive -> -1074 <= e <= 971 ->
  binary_round_aux Number.prec Number.emax s (Zpos m) e loc_Exact
    = S754_finite s m e.
Proof.
  intros Hd He.
  unfold binary_round_aux, shr_fexp, fexp, emin, Number.prec, Number.emax.
  cbn [Zdigits2 shr_record_of_loc]. rewrite Hd.
  replace (Z.max (53 + e - 53) (3 - 1024 - 53) - e) with 0 by lia.
  cbn [shr shr_m loc_of_shr_record round_nearest_even Zdigits2
       shr_record_of_loc].
  rewrite Hd.
  replace (Z.max (53 + e - 53) (3 - 1024 - 53) - e) with 0 by lia.
  cbn [shr shr_m].
  replace (e <=? 1024 - 53) with true by (symmetry; apply Z.leb_le; lia).
  reflexivity.
Qed.

Lemma mul_by_2_52 m : (m * 4503599627370496)%positive = Pos.iter xO m 52.
Proof. rewrite Pos.mul_comm. reflexivity. Qed.

Lemma shr_52_exact m :
  iter_pos shr_1 52 (Build_shr_record (Zpos (Pos.iter xO m 52)) false false)
  = Build_shr_record (Zpos m) false false.
Proof. reflexivity. Qed.

(** [x * 1] is [x] on normal numbers. *)
Lemma mul_one m e :
  digits2_pos m = 53%positive -> -1074 <= e <= 971 ->
  Number.mul (S754_finite false m e) Number.one = S754_finite false m e.
Proof.
  intros Hd He.
  unfold Number.mul, Number.one, SFmul. cbn [xorb].
  rewrite mul_by_2_52.
  unfold binary_round_aux, shr_fexp, fexp, emin, Number.prec, Number.emax.
  cbn [Zdigits2 shr_record_of_loc].
  rewrite digits2_pos_iter_xO, Hd.
  replace (Z.max (Zpos (53 + 52) + (e + -52) - 53) (3 - 1024 - 53)
           - (e + -52)) with 52 by lia.
  cbn [shr]. rewrite shr_52_exact.
  cbn [shr_m loc_of_shr_record round_nearest_even Zdigits2
       shr_record_of_loc].
  rewrite Hd.
  replace (Z.max (53 + (e + -52 + 52) - 53) (3 - 1024 - 53)
           - (e + -52 + 52)) with 0 by lia.
  cbn [shr shr_m].
  replace (e + -52 + 52 <=? 1024 - 53) with true
    by (symmetry; apply Z.leb_le; lia).
  f_equal; lia.
Qed.

(** ToNumber is exact on positive integers below 2^53: the result is the
    integer, normalized to a mantissa of 53 digits. *)
Lemma ofZ_small p :
  Zpos p < 2 ^ 53 ->
  exists m e,
    Number.ofZ (Zpos p) = S754_finite false m e /\
    digits2_pos m = 53%positive /\ -52 <= e <= 0 /\
    Zpos m = Zpos p * 2 ^ (- e).
Proof.
  intros Hp. pose proof (digits_le p 53 ltac:(lia) Hp) as Hd.
  unfold Number.ofZ, binary_normalize, binary_round.
  unfold fexp at 1, emin, Number.prec, Number.emax.
  replace (Z.max (Zpos (digits2_pos p) + 0 - 53) (3 - 1024 - 53))
    with (Zpos (digits2_pos p) - 53) by lia.
  unfold shl_align.
  destruct (Zpos (digits2_pos p) - 53 - 0) as [|k|k] eqn:Hk; try lia.
  - exists p, 0. rewrite round_aux_canonical by lia.
    repeat split; lia.
  - assert (Hdk : digits2_pos (Pos.iter xO p k) = 53%positive).
    { rewrite digits2_pos_iter_xO. lia. }
    exists (Pos.iter xO p k), (Zpos (digits2_pos p) - 53).
    rewrite round_aux_canonical by (try assumption; lia).
    repeat split; try lia; try assumption.
    rewrite Zpos_iter_xO. f_equal. f_equal. lia.
Qed.

Lemma trunc_scaled m e p :
  e <= 0 -> Zpos m = Zpos p * 2 ^ (- e) ->
  Number.trunc (S754_finite false m e) = Some (Zpos p).
Proof.
  intros He Hm. unfold Number.trunc.
  destruct e as [|k|k]; try lia.
  - cbn in *. f_equal. lia.
  - f_equal. rewrite Hm, Z.shiftr_div_pow2 by lia.
    cbn [Z.opp]. apply Z.div_mul. apply Z.pow_nonzero; lia.
Qed.

(** With a factor of exactly one the quote comes back unchanged. *)
Lemma times_one_truncated q :
  0 <= q < 2 ^ 53 ->
  ETH_wei_toFixed (Number.mul (Number.ofZ q) Number.one) = Wei q.
Proof.
  intros [H0 H53]. destruct q as [|p|p]; try lia.
  - reflexivity.
  - destruct (ofZ_small p H53) as (m & e & -> & Hd & He & Hm).
    rewrite mul_one by (try assumption; lia).
    unfold ETH_wei_toFixed. rewrite (trunc_scaled m e p) by (try assumption; lia).
    reflexivity.
Qed.

(** With a factor in [0, 1) the minimal receive is strictly below the
    quote; with a factor of at least one the maximal pay is not below it. *)
Lemma min_bound_below tol q :
  1 <= q < 2 ^ 53 ->
  Number.valid (Number.sub Number.one tol) = true ->
  Number.leb Number.zero (Number.sub Number.one tol) = true ->
  Number.ltb (Number.sub Number.one tol) Number.one = true ->
  exists z, minBuyBound tol q = Wei z /\ 0 <= z < q.
Proof.
  intros Hq Hv H0 H1. unfold minBuyBound, ETH_wei_toFixed.
  destruct q as [|p|p]; try lia.
  destruct (ofZ_small p (proj2 Hq)) as (m & e & -> & Hd & He & Hm).
  destruct (factor_below_one _ Hv H0 H1)
    as [(s & ->) | (mf & ef & -> & Hmf & Hef)].
  - exists 0. split; [reflexivity | lia].
  - destruct (mul_below m e (Zpos p) mf ef Hd He Hm Hmf Hef)
      as (z & -> & Hz).
    exists z. split; [reflexivity | exact Hz].
Qed.

Lemma max_bound_above tol q z :
  0 <= q < 2 ^ 53 ->
  Number.valid (Number.add Number.one tol) = true ->
  Number.leb Number.one (Number.add Number.one tol) = true ->
  maxPayBound tol q = Wei z -> q <= z.
Proof.
  intros Hq Hv H1. unfold maxPayBound, ETH_wei_toFixed.
  destruct (factor_above_one _ Hv H1) as [-> | (mf & ef & -> & Hd & He)].
  - destruct q as [|p|p]; try lia; [cbn; discriminate|].
    destruct (ofZ_small p (proj2 Hq)) as (m & e & -> & _).
    cbn; discriminate.
  - destruct q as [|p|p]; try lia.
    + cbn. intros [= <-]. lia.
    + destruct (ofZ_small p (proj2 Hq)) as (m & e & -> & Hdm & Hem & Hm).
      destruct (Number.trunc _) as [z'|] eqn:Ht; [|discriminate].
      intros [= <-].
      exact (mul_above m e (Zpos p) mf ef z' Hdm Hem Hm Hd He Ht).
Qed.

End NumberFacts.

(** ** The slippage bounds *)

(** C2. The minimal acceptable receive and the maximal acceptable pay are
    the binary64 products [quote * (1 - tolerance)] and
    [quote * (1 + tolerance)], for the quote in use, truncated toward zero
    to an integer.  For every quote below 2^53: with tolerance 0 each bound
    equals the raw quote; when the factor [1 - tolerance] lies in [0, 1)
    and the quote is at least 1, the minimal receive is strictly below the
    quote; when the factor [1 + tolerance] is at least 1, the maximal pay,
    if finite, is not below the quote.  For a quote of 10^18 at the
    tolerance 0.02 the bounds are 98 * 10^16 and 102 * 10^16. *)
Theorem slippage_bounds :
  forall (S : services) (w : world) (t1 t2 : string) (amount : Amount S),
    let qb := used_buy_quote S w t1 t2 amount in
    let qp := used_pay_quote S w t1 t2 amount in
    fst (_minBuyAmount S t1 t2 amount w) =
      ETH_wei_toFixed
        (Number.mul (Number.ofZ qb) (Number.sub Number.one (_slippage w))) /\
    fst (_maxPayAmount S t1 t2 amount w) =
      ETH_wei_toFixed
        (Number.mul (Number.ofZ qp) (Number.add Number.one (_slippage w))) /\
    (_slippage w = Number.zero -> (0 <= qb < 2 ^ 53)%Z ->
     fst (_minBuyAmount S t1 t2 amount w) = Wei qb) /\
    (_slippage w = Number.zero -> (0 <= qp < 2 ^ 53)%Z ->
     fst (_maxPayAmount S t1 t2 amount w) = Wei qp) /\
    (forall tol q,
       (1 <= q < 2 ^ 53)%Z ->
       Number.valid (Number.sub Number.one tol) = true ->
       Number.leb Number.zero (Number.sub Number.one tol) = true ->
       Number.ltb (Number.sub Number.one tol) Number.one = true ->
       exists z, minBuyBound tol q = Wei z /\ (0 <= z < q)%Z) /\
    (forall tol q z,
       (0 <= q < 2 ^ 53)%Z ->
       Number.valid (Number.add Number.one tol) = true ->
       Number.leb Number.one (Number.add Number.one tol) = true ->
       maxPayBound tol q = Wei z -> (q <= z)%Z) /\
    minBuyBound Number.lit_0_02 (10 ^ 18) = Wei (98 * 10 ^ 16) /\
    maxPayBound Number.lit_0_02 (10 ^ 18) = Wei (102 * 10 ^ 16).
Proof.
  intros S w t1 t2 amount; cbn zeta.
  rewrite minBuyAmount_value, maxPayAmount_value.
  split; [reflexivity|]. split; [reflexivity|].
  split; [|split; [|split; [|split; [|split]]]].
  - intros -> Hq. apply NumberFacts.times_one_truncated; exact Hq.
  - intros -> Hq. apply NumberFacts.times_one_truncated; exact Hq.
  - exact NumberFacts.min_bound_below.
  - exact NumberFacts.max_bound_above.
  - vm_compute; reflexivity.
  - vm_compute; reflexivity.
Qed.

Lemma slippage_bounds_witness :
  let w := snd (setSlippageLimit Number.zero Demo.with_proxy) in
  fst (_minBuyAmount Demo.svc "USDC" "DAI" 3%Z w) = Wei 6000000 /\
  (exists z, minBuyBound Number.lit_0_02 (10 ^ 15) = Wei z /\
             (0 <= z < 10 ^ 15)%Z) /\
  (10 ^ 15 <= 1020000000000000)%Z.
Proof.
  split; [|split].
  - refine (proj1 (proj2 (proj2 (slippage_bounds Demo.svc
             (snd (setSlippageLimit Number.zero Demo.with_proxy))
             "USDC" "DAI" 3%Z)))
           eq_refl _).
    vm_compute; split; [discriminate | reflexivity].
  - refine (proj1 (proj2 (proj2 (proj2 (proj2 (slippage_bounds
             Demo.svc Demo.with_proxy "DAI" "WETH" 3%Z)))))
             Number.lit_0_02 (10 ^ 15)%Z _ eq_refl eq_refl eq_refl).
    vm_compute; split; [discriminate | reflexivity].
  - refine (proj1 (proj2 (proj2 (proj2 (proj2 (proj2 (slippage_bounds
             Demo.svc Demo.with_proxy "DAI" "WETH" 3%Z))))))
             Number.lit_0_02 (10 ^ 15)%Z 1020000000000000%Z _
             eq_refl eq_refl eq_refl).
    vm_compute; split; [discriminate | reflexivity].
Defined.

(** C2, as stated, fails: at the tolerance 0.02, which is above 0, the
    maximal pay for a quote of 1 is 1 and the minimal receive for a quote of
    0 is 0, neither strict; and at tolerance 0 the bound for the quote
    2^53 + 1 is 2^53, not the quote. *)
Lemma bounds_not_strict_counterexample :
  Number.ltb Number.zero Number.lit_0_02 = true /\
  maxPayBound Number.lit_0_02 1 = Wei 1 /\
  minBuyBound Number.lit_0_02 0 = Wei 0 /\
  maxPayBound Number.zero (2 ^ 53 + 1) = Wei (2 ^ 53) /\
  Wei (2 ^ 53) <> Wei (2 ^ 53 + 1).
Proof. vm_compute. repeat split. discriminate. Qed.

(** * Further properties of whole runs *)

Section Runs.

Variable S : services.

Lemma checkProxy_result sellCurrency w :
  fst (_checkProxy S sellCurrency w) =
    resolved_proxy S sellCurrency (proxy_current w) /\
  proxy_current (snd (_checkProxy S sellCurrency w)) =
    proxy_afterwards S sellCurrency (proxy_current w).
Proof.
  unfold resolved_proxy, proxy_afterwards.
  destruct (Js.truthy (proxy_current w)) eqn:H.
  - rewrite (checkProxy_existing S _ _ H); split; reflexivity.
  - destruct (String.eqb_spec sellCurrency "ETH") as [-> | Hs].
    + rewrite (checkProxy_none S _ H); split; reflexivity.
    + rewrite (checkProxy_created S _ _ H Hs); split; reflexivity.
Qed.

Lemma sell_proxy_current sell_ buy_ amount w :
  proxy_current (snd (sell S sell_ buy_ amount w)) =
    proxy_afterwards S sell_ (proxy_current w).
Proof.
  destruct (checkProxy_result sell_ w) as (_ & <-).
  rewrite sell_eq.
  destruct (_checkProxy S sell_ w) as [proxy w1]; cbn [snd].
  destruct (usable S (_buyAmount w1)) as [q|] eqn:Hu.
  - rewrite (minBuyAmount_memo S _ _ _ _ _ Hu); reflexivity.
  - rewrite (minBuyAmount_fresh S _ _ _ _ Hu), getBuyAmount_run; reflexivity.
Qed.

Lemma buy_proxy_current buy_ sell_ amount w :
  proxy_current (snd (buy S buy_ sell_ amount w)) =
    proxy_afterwards S sell_ (proxy_current w).
Proof.
  destruct (checkProxy_result sell_ w) as (_ & <-).
  rewrite buy_eq.
  destruct (_checkProxy S sell_ w) as [proxy w1]; cbn [snd].
  destruct (usable S (_payAmount w1)) as [q|] eqn:Hu.
  - rewrite (maxPayAmount_memo S _ _ _ _ _ Hu); reflexivity.
  - rewrite (maxPayAmount_fresh S _ _ _ _ Hu), getPayAmount_run; reflexivity.
Qed.

(** Resolving again after a resolution gives the same handle. *)
Lemma resolved_proxy_stable sellCurrency current :
  resolved_proxy S sellCurrency (proxy_afterwards S sellCurrency current) =
    resolved_proxy S sellCurrency current.
Proof.
  unfold resolved_proxy, proxy_afterwards.
  destruct (Js.truthy current) eqn:Hc; [rewrite Hc; reflexivity|].
  destruct (negb (sellCurrency =? "ETH")) eqn:He.
  - destruct (Js.truthy (ensureProxy_result S)); reflexivity.
  - rewrite Hc; reflexivity.
Qed.

Lemma used_buy_quote_stable w w' t1 t2 (a : Amount S) :
  _buyAmount w' = Some (used_buy_quote S w t1 t2 a) ->
  used_buy_quote S w' t1 t2 a = used_buy_quote S w t1 t2 a.
Proof.
  intros H. unfold used_buy_quote at 1. rewrite H. unfold usable.
  destruct (quote_truthy S (used_buy_quote S w t1 t2 a)) eqn:Ht;
    [reflexivity|].
  unfold used_buy_quote in *. unfold usable in *.
  destruct (_buyAmount w) as [q|]; [|reflexivity].
  destruct (quote_truthy S q) eqn:Hq; [congruence | reflexivity].
Qed.

Lemma used_pay_quote_stable w w' t1 t2 (a : Amount S) :
  _payAmount w' = Some (used_pay_quote S w t1 t2 a) ->
  used_pay_quote S w' t1 t2 a = used_pay_quote S w t1 t2 a.
Proof.
  intros H. unfold used_pay_quote at 1. rewrite H. unfold usable.
  destruct (quote_truthy S (used_pay_quote S w t1 t2 a)) eqn:Ht;
    [reflexivity|].
  unfold used_pay_quote in *. unfold usable in *.
  destruct (_payAmount w) as [q|]; [|reflexivity].
  destruct (quote_truthy S q) eqn:Hq; [congruence | reflexivity].
Qed.

End Runs.

(** X1. Constructing the same order twice gives the same order: a second
    [sell] (or [buy]) with the arguments of the first, started where the
    first left the service, returns an order equal to the first one in
    method, parameters, currency and options. *)
Theorem same_order_twice :
  forall (S : services) (w : world) (sell_ buy_ : string) (amount : Amount S),
    fst (sell S sell_ buy_ amount (snd (sell S sell_ buy_ amount w))) =
      fst (sell S sell_ buy_ amount w) /\
    fst (buy S buy_ sell_ amount (snd (buy S buy_ sell_ amount w))) =
      fst (buy S buy_ sell_ amount w).
Proof.
  intros S w sell_ buy_ amount; split.
  - destruct (sell_run S sell_ buy_ amount w) as (Ho & _ & Hm & _ & Hs).
    destruct (sell_run S sell_ buy_ amount (snd (sell S sell_ buy_ amount w)))
      as (-> & _).
    rewrite Ho. unfold sell_order.
    rewrite Hs, (used_buy_quote_stable S _ _ _ _ _ Hm).
    rewrite !(proj1 (checkProxy_result S _ _)), sell_proxy_current.
    rewrite resolved_proxy_stable. reflexivity.
  - destruct (buy_run S buy_ sell_ amount w) as (Ho & _ & Hm & _ & Hs).
    destruct (buy_run S buy_ sell_ amount (snd (buy S buy_ sell_ amount w)))
      as (-> & _).
    rewrite Ho. unfold buy_order.
    rewrite Hs, (used_pay_quote_stable S _ _ _ _ _ Hm).
    rewrite !(proj1 (checkProxy_result S _ _)), buy_proxy_current.
    rewrite resolved_proxy_stable. reflexivity.
Qed.

Section RunEvents.

Variable S : services.

Lemma sell_new_events sell_ buy_ amount w :
  new_events (sell S sell_ buy_ amount) w =
    (new_events (_checkProxy S sell_) w
       ++ buy_quote_events S w (wrapped buy_) (wrapped sell_) amount
       ++ allowance_events (wrapped sell_)
            (resolved_proxy S sell_ (proxy_current w))
       ++ [SellOrderBuilt (fst (sell S sell_ buy_ amount w))])%list.
Proof.
  destruct (sell_run S sell_ buy_ amount w) as (Ho & Htr & _).
  rewrite <- (proj1 (checkProxy_result S sell_ w)), Ho.
  apply new_events_app; exact Htr.
Qed.

Lemma buy_new_events buy_ sell_ amount w :
  new_events (buy S buy_ sell_ amount) w =
    (new_events (_checkProxy S sell_) w
       ++ pay_quote_events S w (wrapped sell_) (wrapped buy_) amount
       ++ allowance_events (wrapped sell_)
            (resolved_proxy S sell_ (proxy_current w))
       ++ [BuyOrderBuilt (fst (buy S buy_ sell_ amount w))])%list.
Proof.
  destruct (buy_run S buy_ sell_ amount w) as (Ho & Htr & _).
  rewrite <- (proj1 (checkProxy_result S sell_ w)), Ho.
  apply new_events_app; exact Htr.
Qed.

Lemma filter_checkProxy_events (f : event -> bool) sellCurrency w :
  f (Called Proxy_currentProxy) = false ->
  f (Settled Proxy_currentProxy) = false ->
  f (Settled Proxy_ensureProxy) = false ->
  filter f (new_events (_checkProxy S sellCurrency) w) =
    if negb (Js.truthy (proxy_current w)) && negb (sellCurrency =? "ETH")
    then filter f [Called Proxy_ensureProxy] else [].
Proof.
  intros H1 H2 H3. rewrite checkProxy_new_events. cbn [app filter].
  rewrite H1, H2.
  destruct (Js.truthy (proxy_current w)); [reflexivity|].
  destruct (negb (sellCurrency =? "ETH")); cbn [negb andb filter];
    [rewrite H3|]; reflexivity.
Qed.

Lemma filter_buy_quote_events (f : event -> bool) w t1 t2 (a : Amount S) :
  (forall x y z, f (Settled (Otc_getBuyAmount x y z)) = false) ->
  filter f (buy_quote_events S w t1 t2 a) =
    match usable S (_buyAmount w) with
    | Some _ => []
    | None => filter f [Called (Otc_getBuyAmount (tokenAddress S t1)
                                  (tokenAddress S t2)
                                  (valueForContract S a t1))]
    end.
Proof.
  intros H. unfold buy_quote_events.
  destruct (usable S (_buyAmount w)); [reflexivity|].
  cbn [filter]. rewrite H. reflexivity.
Qed.

Lemma filter_pay_quote_events (f : event -> bool) w t1 t2 (a : Amount S) :
  (forall x y z, f (Settled (Otc_getPayAmount x y z)) = false) ->
  filter f (pay_quote_events S w t1 t2 a) =
    match usable S (_payAmount w) with
    | Some _ => []
    | None => filter f [Called (Otc_getPayAmount (tokenAddress S t1)
                                  (tokenAddress S t2)
                                  (valueForContract S a t2))]
    end.
Proof.
  intros H. unfold pay_quote_events.
  destruct (usable S (_payAmount w)); [reflexivity|].
  cbn [filter]. rewrite H. reflexivity.
Qed.

Lemma filter_allowance_events (f : event -> bool) token proxy :
  (forall t p, f (Called (Allowance_requireAllowance t p)) = false) ->
  (forall t p, f (Settled (Allowance_requireAllowance t p)) = false) ->
  filter f (allowance_events token proxy) = [].
Proof.
  intros H1 H2. unfold allowance_events.
  destruct (Js.truthy proxy); [|reflexivity].
  cbn [filter]. rewrite H1, H2. reflexivity.
Qed.

End RunEvents.

(** X2. A sale keeps to the buy side and a purchase to the pay side: [sell]
    leaves the tolerance and the memoized pay quote untouched and never asks
    the exchange for a pay amount, [buy] leaves the tolerance and the
    memoized buy quote untouched and never asks for a buy amount; each asks
    the exchange at most once, namely exactly when it found no usable
    memo. *)
Theorem orders_keep_to_their_side :
  forall (S : services) (w : world) (sell_ buy_ : string) (amount : Amount S),
    let ws := snd (sell S sell_ buy_ amount w) in
    let wb := snd (buy S buy_ sell_ amount w) in
    (_slippage ws = _slippage w /\ _payAmount ws = _payAmount w /\
     filter is_pay_quote_event (new_events (sell S sell_ buy_ amount) w) = []
     /\
     List.length
       (filter is_quote_call (new_events (sell S sell_ buy_ amount) w)) =
       match usable S (_buyAmount w) with Some _ => 0 | None => 1 end) /\
    (_slippage wb = _slippage w /\ _buyAmount wb = _buyAmount w /\
     filter is_buy_quote_event (new_events (buy S buy_ sell_ amount) w) = []
     /\
     List.length
       (filter is_quote_call (new_events (buy S buy_ sell_ amount) w)) =
       match usable S (_payAmount w) with Some _ => 0 | None => 1 end).
Proof.
  intros S w sell_ buy_ amount; cbn zeta.
  destruct (sell_run S sell_ buy_ amount w) as (_ & _ & _ & Hsp & Hss).
  destruct (buy_run S buy_ sell_ amount w) as (_ & _ & _ & Hbb & Hbs).
  rewrite sell_new_events, buy_new_events, !filter_app.
  rewrite !filter_checkProxy_events by reflexivity.
  rewrite !filter_allowance_events by reflexivity.
  rewrite !filter_buy_quote_events, !filter_pay_quote_events by reflexivity.
  repeat split; try assumption.
  - destruct (_ && _), (usable S (_buyAmount w)); reflexivity.
  - destruct (_ && _), (usable S (_buyAmount w)); reflexivity.
  - destruct (_ && _), (usable S (_payAmount w)); reflexivity.
  - destruct (_ && _), (usable S (_payAmount w)); reflexivity.
Qed.

(** X3. A proxy is created through the proxy service exactly when the caller
    has none and the asset sold is not ETH, and then once: a sale or a
    purchase paid in ETH never calls [ensureProxy], and neither does one
    made with an existing proxy.  Afterwards the caller has the proxy they
    had, or the created one. *)
Theorem proxy_created_only_for_token_sales :
  forall (S : services) (w : world) (sell_ buy_ : string) (amount : Amount S),
    let n := if negb (Js.truthy (proxy_current w)) && negb (sell_ =? "ETH")
             then 1 else 0 in
    List.length
      (filter is_ensureProxy_call (new_events (sell S sell_ buy_ amount) w))
      = n /\
    List.length
      (filter is_ensureProxy_call (new_events (buy S buy_ sell_ amount) w))
      = n /\
    proxy_current (snd (sell S sell_ buy_ amount w)) =
      (if n =? 0 then proxy_current w else ensureProxy_result S)%nat /\
    proxy_current (snd (buy S buy_ sell_ amount w)) =
      (if n =? 0 then proxy_current w else ensureProxy_result S)%nat.
Proof.
  intros S w sell_ buy_ amount; cbn zeta.
  rewrite sell_new_events, buy_new_events, !filter_app.
  rewrite !filter_checkProxy_events by reflexivity.
  rewrite !filter_allowance_events by reflexivity.
  rewrite !filter_buy_quote_events, !filter_pay_quote_events by reflexivity.
  rewrite sell_proxy_current, buy_proxy_current. unfold proxy_afterwards.
  destruct (Js.truthy (proxy_current w)), (negb (sell_ =? "ETH")),
    (usable S (_buyAmount w)), (usable S (_payAmount w));
    repeat split; reflexivity.
Qed.

Lemma setMethod_is_create sell_ buy_ proxy base :
  In base ["sellAllAmount"; "buyAllAmount"] ->
  is_create_and_execute (_setMethod sell_ buy_ base proxy) =
    (sell_ =? "ETH") && negb (buy_ =? "ETH") && negb (Js.truthy proxy).
Proof.
  intros [<- | [<- | []]]; unfold _setMethod;
    destruct (buy_ =? "ETH"), (sell_ =? "ETH"), (Js.truthy proxy);
    reflexivity.
Qed.

Lemma resolved_proxy_truthy_native (S : services) current :
  Js.truthy (resolved_proxy S "ETH" current) = Js.truthy current.
Proof.
  unfold resolved_proxy. destruct (Js.truthy current) eqn:H; [exact H|].
  reflexivity.
Qed.

(** X4. An order uses an atomic createAnd entry point exactly when ETH is
    sold, something else is bought and the caller has no proxy.  Such a run
    asks the proxy service for the current proxy, asks the exchange when it
    has no usable memo, and builds the order: it creates no proxy and
    requires no allowance. *)
Theorem atomic_orders :
  forall (S : services) (w : world) (sell_ buy_ : string) (amount : Amount S),
    let atomic := (sell_ =? "ETH") && negb (buy_ =? "ETH")
                  && negb (Js.truthy (proxy_current w)) in
    is_create_and_execute (ord_method (fst (sell S sell_ buy_ amount w)))
      = atomic /\
    is_create_and_execute (ord_method (fst (buy S buy_ sell_ amount w)))
      = atomic /\
    (atomic = true ->
     new_events (sell S sell_ buy_ amount) w =
       ([Called Proxy_currentProxy; Settled Proxy_currentProxy]
          ++ buy_quote_events S w buy_ "WETH" amount
          ++ [SellOrderBuilt (fst (sell S sell_ buy_ amount w))])%list /\
     new_events (buy S buy_ sell_ amount) w =
       ([Called Proxy_currentProxy; Settled Proxy_currentProxy]
          ++ pay_quote_events S w "WETH" buy_ amount
          ++ [BuyOrderBuilt (fst (buy S buy_ sell_ amount w))])%list).
Proof.
  intros S w sell_ buy_ amount; cbn zeta.
  split; [|split].
  - destruct (sell_run S sell_ buy_ amount w) as (-> & _).
    unfold sell_order; cbn [ord_method].
    rewrite setMethod_is_create by (cbn; tauto).
    rewrite (proj1 (checkProxy_result S sell_ w)).
    destruct (String.eqb_spec sell_ "ETH") as [-> | Hs]; [|reflexivity].
    rewrite resolved_proxy_truthy_native; reflexivity.
  - destruct (buy_run S buy_ sell_ amount w) as (-> & _).
    unfold buy_order; cbn [ord_method].
    rewrite setMethod_is_create by (cbn; tauto).
    rewrite (proj1 (checkProxy_result S sell_ w)).
    destruct (String.eqb_spec sell_ "ETH") as [-> | Hs]; [|reflexivity].
    rewrite resolved_proxy_truthy_native; reflexivity.
  - intros H. apply andb_prop in H as (H & Hp).
    apply andb_prop in H as (Hs & Hb).
    apply String.eqb_eq in Hs; subst sell_.
    apply negb_true_iff in Hp, Hb. apply String.eqb_neq in Hb.
    rewrite sell_new_events, buy_new_events, checkProxy_new_events.
    unfold allowance_events.
    rewrite resolved_proxy_truthy_native, Hp, (wrapped_not_native _ Hb).
    split; reflexivity.
Qed.

Lemma atomic_orders_witness :
  new_events (sell Demo.svc "ETH" "DAI" 1%Z) Demo.no_proxy =
    [Called Proxy_currentProxy; Settled Proxy_currentProxy;
     Called (Otc_getBuyAmount "0xDAI" "0xWETH" (Wei 1000000000000000000));
     Settled (Otc_getBuyAmount "0xDAI" "0xWETH" (Wei 1000000000000000000));
     SellOrderBuilt (fst (sell Demo.svc "ETH" "DAI" 1%Z Demo.no_proxy))].
Proof.
  exact (proj1 (proj2 (proj2 (atomic_orders Demo.svc Demo.no_proxy
                                "ETH" "DAI" 1%Z)) eq_refl)).
Defined.

(** X5. Trading one token for another (neither is ETH) goes through the
    plain entry point with five parameters built from the caller's own
    tokens.  A sale passes the exchange address, the address of the token
    sold, its integer amount, the address of the token bought and the
    minimal receive; a purchase passes the exchange address, the address of
    the token bought, its integer amount, the address of the token paid and
    the maximal pay.  No value is attached and the call is routed through
    the proxy.  A sale settles in DAI when DAI is bought and in WETH
    otherwise. *)
Theorem token_to_token_orders :
  forall (S : services) (w : world) (sell_ buy_ : string) (amount : Amount S),
    sell_ <> "ETH" -> buy_ <> "ETH" ->
    let os := fst (sell S sell_ buy_ amount w) in
    let ob := fst (buy S buy_ sell_ amount w) in
    ord_method os = "sellAllAmount" /\
    ord_params os =
      [Addr (contractAddress S MAKER_OTC);
       Addr (tokenAddress S sell_);
       Amt (valueForContract S amount sell_);
       Addr (tokenAddress S buy_);
       Amt (minBuyBound (_slippage w)
              (used_buy_quote S w buy_ sell_ amount))] /\
    ord_currency os = Some (if buy_ =? "DAI" then DAI else WETH) /\
    ord_method ob = "buyAllAmount" /\
    ord_params ob =
      [Addr (contractAddress S MAKER_OTC);
       Addr (tokenAddress S buy_);
       Amt (valueForContract S amount buy_);
       Addr (tokenAddress S sell_);
       Amt (maxPayBound (_slippage w)
              (used_pay_quote S w sell_ buy_ amount))] /\
    ord_options os = {| opt_otc := MAKER_OTC; opt_dsProxy := Some true;
                        opt_value := None |} /\
    ord_options ob = {| opt_otc := MAKER_OTC; opt_dsProxy := Some true;
                        opt_value := None |}.
Proof.
  intros S w sell_ buy_ amount Hs Hb; cbn zeta.
  destruct (sell_run S sell_ buy_ amount w) as (-> & _).
  destruct (buy_run S buy_ sell_ amount w) as (-> & _).
  unfold sell_order, buy_order.
  rewrite (wrapped_not_native _ Hs), (wrapped_not_native _ Hb).
  apply String.eqb_neq in Hs, Hb.
  unfold _setMethod, _buildOptions; rewrite Hs, Hb; cbn.
  repeat split.
Qed.

Lemma token_to_token_orders_witness :
  ord_params (fst (sell Demo.svc "WETH" "DAI" 2%Z Demo.with_proxy)) =
    [Addr "0xOTC"; Addr "0xWETH"; Amt (Wei 2000000000000000000);
     Addr "0xDAI"; Amt (Wei 3920000000000000000)] /\
  ord_params (fst (buy Demo.svc "DAI" "WETH" 2%Z Demo.with_proxy)) =
    [Addr "0xOTC"; Addr "0xDAI"; Amt (Wei 2000000000000000000);
     Addr "0xWETH"; Amt (Wei 1020000000000000000)].
Proof.
  destruct (token_to_token_orders Demo.svc Demo.with_proxy
              "WETH" "DAI" 2%Z ltac:(discriminate) ltac:(discriminate))
    as (_ & Hs & _ & _ & Hb & _).
  rewrite Hs, Hb. split; vm_compute; reflexivity.
Defined.

Lemma wrapped_never_native asset : wrapped asset <> "ETH".
Proof.
  unfold wrapped. destruct (String.eqb_spec asset "ETH"); [discriminate|].
  assumption.
Qed.

Lemma buildParams_addresses (S : services) sendToken (amount : Amount S)
  buyToken limit method a :
  In a (addresses (_buildParams S sendToken amount buyToken limit method)) ->
  In a [contractAddress S MAKER_OTC; contractAddress S PROXY_REGISTRY;
        tokenAddress S "DAI"; tokenAddress S "WETH";
        tokenAddress S sendToken; tokenAddress S buyToken].
Proof.
  unfold _buildParams, _getTokenAddress, _otc.
  destruct (method =? "sellAllAmountPayEth");
    [|destruct (method =? "createAndSellAllAmountPayEth");
      [|destruct (method =? "buyAllAmountPayEth");
        [|destruct (method =? "createAndBuyAllAmountPayEth")]]];
    cbn; tauto.
Qed.

(** X6. ETH is never passed to a contract as a token: every address among
    the parameters of an order is the exchange's, the proxy registry's, or
    the token address of DAI, of WETH, or of the caller's assets with ETH
    replaced by WETH; the symbol whose address is looked up is never
    ETH. *)
Theorem native_asset_never_an_address :
  forall (S : services) (w : world) (sell_ buy_ : string) (amount : Amount S)
         (a : address),
    (In a (addresses (ord_params (fst (sell S sell_ buy_ amount w)))) \/
     In a (addresses (ord_params (fst (buy S buy_ sell_ amount w))))) ->
    exists symbol,
      symbol <> "ETH" /\
      In a [contractAddress S MAKER_OTC; contractAddress S PROXY_REGISTRY;
            tokenAddress S symbol].
Proof.
  intros S w sell_ buy_ amount a H.
  destruct (sell_run S sell_ buy_ amount w) as (Hs & _).
  destruct (buy_run S buy_ sell_ amount w) as (Hb & _).
  rewrite Hs, Hb in H. unfold sell_order, buy_order in H.
  cbn [ord_params] in H.
  assert (Hin : In a [contractAddress S MAKER_OTC;
                      contractAddress S PROXY_REGISTRY;
                      tokenAddress S "DAI"; tokenAddress S "WETH";
                      tokenAddress S (wrapped sell_);
                      tokenAddress S (wrapped buy_)]).
  { destruct H as [H | H]; apply buildParams_addresses in H;
      cbn in H |- *; tauto. }
  cbn in Hin.
  destruct Hin as [<- | [<- | [<- | [<- | [<- | [<- | []]]]]]].
  - exists "DAI"; split; [discriminate | cbn; tauto].
  - exists "DAI"; split; [discriminate | cbn; tauto].
  - exists "DAI"; split; [discriminate | cbn; tauto].
  - exists "WETH"; split; [discriminate | cbn; tauto].
  - exists (wrapped sell_); split; [apply wrapped_never_native | cbn; tauto].
  - exists (wrapped buy_); split; [apply wrapped_never_native | cbn; tauto].
Qed.

Lemma native_asset_never_an_address_witness :
  exists symbol,
    symbol <> "ETH" /\
    In "0xWETH" [contractAddress Demo.svc MAKER_OTC;
                 contractAddress Demo.svc PROXY_REGISTRY;
                 tokenAddress Demo.svc symbol].
Proof.
  apply (native_asset_never_an_address Demo.svc Demo.with_proxy
           "DAI" "ETH" 1%Z "0xWETH").
  left. vm_compute. tauto.
Defined.

(** * Further properties of the entry-point names *)

Module NameFacts.

Lemma lower_upper_char c : Js.lower_char (Js.upper_char c) = Js.lower_char c.
Proof. destruct c as [[] [] [] [] [] [] [] []]; reflexivity. Qed.

Lemma toLowerCase_app s1 s2 :
  Js.toLowerCase (s1 ++ s2) = Js.toLowerCase s1 ++ Js.toLowerCase s2.
Proof. induction s1 as [|c s1 IH]; cbn; [|rewrite IH]; reflexivity. Qed.

Lemma toLowerCase_capitalize m :
  Js.toLowerCase (capitalize m) = Js.toLowerCase m.
Proof.
  destruct m as [|c m]; [reflexivity|].
  unfold capitalize; cbn. rewrite lower_upper_char; reflexivity.
Qed.

Lemma prefix_refl s : String.prefix s s = true.
Proof.
  induction s as [|c s IH]; cbn; [reflexivity|].
  destruct (ascii_dec c c); [exact IH | congruence].
Qed.

Lemma includes_suffix needle pre : Js.includes needle (pre ++ needle) = true.
Proof.
  induction pre as [|c pre IH].
  - cbn [append]. destruct needle; cbn [Js.includes];
      rewrite prefix_refl; reflexivity.
  - cbn [append Js.includes]. rewrite IH. apply orb_true_r.
Qed.

Lemma length_app s1 s2 :
  String.length (s1 ++ s2) = String.length s1 + String.length s2.
Proof. induction s1 as [|c s1 IH]; cbn; [|rewrite IH]; reflexivity. Qed.

Lemma length_capitalize m : String.length (capitalize m) = String.length m.
Proof. destruct m; reflexivity. Qed.

Lemma app_inv_head s t1 t2 : s ++ t1 = s ++ t2 -> t1 = t2.
Proof.
  induction s as [|c s IH]; cbn; [trivial|].
  intros [= H]; auto.
Qed.

End NameFacts.

(** X8. On a base name of ASCII code units, where [toUpperCase] and
    [toLowerCase] act letter by letter, the case-insensitive test of the
    options builder recognises both pay-native entry points: capitalizing
    the name does not change its lower-case form, so the lower-cased name
    selected for an ETH sale, with or without a proxy, contains the
    lower-cased [base + 'PayEth']. *)
Theorem lowercase_test_sees_both_pay_native_names :
  forall (base buy_ : string) (proxy : Js.value),
    is_ascii_name base = true ->
    Js.toLowerCase (capitalize base) = Js.toLowerCase base /\
    (buy_ <> "ETH" ->
     Js.includes (Js.toLowerCase (base ++ "PayEth"))
       (Js.toLowerCase (_setMethod "ETH" buy_ base proxy)) = true).
Proof.
  intros base buy_ proxy _; split; [apply NameFacts.toLowerCase_capitalize|].
  intros Hb; apply String.eqb_neq in Hb.
  unfold _setMethod; rewrite Hb.
  change ("ETH" =? "ETH") with true.
  destruct (Js.truthy proxy); cbn [andb negb].
  - apply (NameFacts.includes_suffix _ "").
  - rewrite (NameFacts.toLowerCase_app "createAnd"),
      (NameFacts.toLowerCase_app (capitalize base)),
      NameFacts.toLowerCase_capitalize,
      <- (NameFacts.toLowerCase_app base).
    apply NameFacts.includes_suffix.
Qed.

Lemma lowercase_test_sees_both_pay_native_names_witness :
  Js.includes (Js.toLowerCase ("buyAllAmount" ++ "PayEth"))
    (Js.toLowerCase (_setMethod "ETH" "DAI" "buyAllAmount" Js.Null)) = true.
Proof.
  apply (lowercase_test_sees_both_pay_native_names "buyAllAmount" "DAI"
           Js.Null eq_refl).
  discriminate.
Defined.

(** X9. For every base name the four names the selector can return are
    pairwise different, so the name of an order tells which row of the
    selection was taken. *)
Theorem selected_names_are_distinct :
  forall base : string,
    NoDup [base ++ "BuyEth"; "createAnd" ++ capitalize base ++ "PayEth";
           base ++ "PayEth"; base].
Proof.
  intros base.
  assert (Hlen : forall s t : string, s = t -> String.length s = String.length t)
    by (intros s t ->; reflexivity).
  repeat constructor; cbn [In]; intros H;
    repeat (destruct H as [H | H]); try exact H;
    try (apply Hlen in H;
         rewrite ?NameFacts.length_app, ?NameFacts.length_capitalize in H;
         cbn in H; rewrite ?NameFacts.length_app,
           ?NameFacts.length_capitalize in H; cbn in H; lia).
  apply NameFacts.app_inv_head in H; discriminate.
Qed.

(** * Further properties of the bounds and the tolerance *)

Module SignFacts.

Local Open Scope Z_scope.

(** Rounding keeps the sign it is given. *)
Lemma round_aux_shape sx m e l :
  let R := binary_round_aux Number.prec Number.emax sx m e l in
  R = S754_zero sx \/ R = S754_infinity sx \/ R = S754_nan \/
  exists m' e', R = S754_finite sx m' e'.
Proof.
  cbn zeta. unfold binary_round_aux.
  destruct (shr_fexp Number.prec Number.emax m e l) as [mrs1 e1].
  destruct (shr_fexp Number.prec Number.emax _ e1 loc_Exact) as [mrs2 e2].
  destruct (shr_m mrs2) as [|m'|m']; auto.
  destruct (e2 <=? Number.emax - Number.prec); eauto 6.
Qed.

Lemma ofZ_shape q :
  0 <= q ->
  Number.ofZ q = S754_zero false \/ Number.ofZ q = S754_infinity false \/
  Number.ofZ q = S754_nan \/
  exists m e, Number.ofZ q = S754_finite false m e.
Proof.
  intros Hq. destruct q as [|p|p]; try lia; [left; reflexivity|].
  unfold Number.ofZ, binary_normalize, binary_round.
  destruct (shl_align p 0 _) as [mz ez].
  apply round_aux_shape.
Qed.

Lemma trunc_sign s m e z :
  Number.trunc (S754_finite s m e) = Some z ->
  if s then z <= 0 else 0 <= z.
Proof.
  unfold Number.trunc. intros [= <-].
  assert (Ha : 0 <= match e with
                    | Zneg k => Z.shiftr (Zpos m) (Zpos k)
                    | _ => Z.shiftl (Zpos m) e
                    end).
  { destruct e; [apply Z.shiftl_nonneg | apply Z.shiftl_nonneg
                 | apply Z.shiftr_nonneg]; lia. }
  destruct s; lia.
Qed.

(** The sign of a truncated product of a number that is not negative. *)
Lemma product_sign q f z :
  0 <= q ->
  ETH_wei_toFixed (Number.mul (Number.ofZ q) f) = Wei z ->
  (Number.leb Number.zero f = true -> 0 <= z) /\
  (Number.ltb f Number.zero = true -> z <= 0).
Proof.
  intros Hq. unfold ETH_wei_toFixed.
  destruct (Number.trunc _) as [z'|] eqn:Ht; [|discriminate].
  intros [= <-]. revert Ht.
  unfold Number.leb, Number.ltb, SFleb, SFltb, Number.zero, Number.mul.
  destruct (ofZ_shape q Hq) as [-> | [-> | [-> | (mx & ex & ->)]]];
    destruct f as [sy | sy | | sy my ey];
    cbn [SFmul SFcompare xorb Number.trunc];
    try discriminate.
  - intros Ht; injection Ht as Hz; subst z'. split; intros _; lia.
  - intros Ht; injection Ht as Hz; subst z'. split; intros _; lia.
  - intros Ht; injection Ht as Hz; subst z'. split; intros _; lia.
  - intros Ht.
    destruct (round_aux_shape sy (Zpos (mx * my)) (ex + ey) loc_Exact)
      as [HR | [HR | [HR | (m' & e' & HR)]]]; cbn zeta in HR;
      rewrite HR in Ht; cbn [Number.trunc] in Ht; try discriminate.
    + injection Ht as Hz; subst z'. split; intros _; lia.
    + apply trunc_sign in Ht.
      destruct sy; split; intros H; (assumption || discriminate).
Qed.

End SignFacts.

(** X10. With a factor that is not negative the bounds are not negative:
    for a quote of at least 0, the minimal receive is at least 0 whenever
    [1 - tolerance] is at least 0 (a tolerance of at most 1), and the
    maximal pay is at least 0 whenever [1 + tolerance] is at least 0. *)
Theorem bounds_are_not_negative :
  forall (tol : Number.t) (q z : Z),
    (0 <= q)%Z ->
    (Number.leb Number.zero (Number.sub Number.one tol) = true ->
     minBuyBound tol q = Wei z -> (0 <= z)%Z) /\
    (Number.leb Number.zero (Number.add Number.one tol) = true ->
     maxPayBound tol q = Wei z -> (0 <= z)%Z).
Proof.
  intros tol q z Hq; split; intros Hf H;
    exact (proj1 (SignFacts.product_sign q _ z Hq H) Hf).
Qed.

Lemma bounds_are_not_negative_witness :
  minBuyBound Number.lit_0_02 7 = Wei 6 /\ (0 <= 6)%Z.
Proof.
  split; [vm_compute; reflexivity|].
  refine (proj1 (bounds_are_not_negative Number.lit_0_02 7%Z 6%Z _) _ _).
  - vm_compute; discriminate.
  - vm_compute; reflexivity.
  - vm_compute; reflexivity.
Defined.
